(** * Sina news crawler ([scrape_sina_news.py]): keyword filter, paged crawl
    loop and incremental JSON result store.

    Python [str] values are modelled as their UTF-8 byte strings (Rocq
    [string]); the output file is opened with [encoding='utf-8'] on a
    platform whose line separator is a line feed, so the file content is the
    concatenation of the byte strings written to it.

    The browser is a script of what each awaited Playwright call returns or
    raises. Starting and closing the browser, and reading and writing files,
    are taken to succeed; the only file-system failures kept are the ones
    the code can provoke itself (a seek before the start of the file, a file
    that is not there). The file system is a finite map from paths to
    contents. *)

From Stdlib Require Import ZArith Ascii DecimalString DecimalPos DecimalZ.
From stdpp Require Import gmap strings list.

Local Open Scope Z_scope.

(** ** Python string primitives *)

Definition LF : ascii := "010"%char.
Definition DQUOTE : ascii := "034"%char.
Definition BACKSLASH : ascii := "092"%char.

Definition str (c : ascii) : string := String c "".

(** [x in s] for two strings: [x] occurs in [s] as a contiguous run. *)
Fixpoint str_in (x s : string) : bool :=
  String.prefix x s ||
  match s with
  | "" => false
  | String _ s' => str_in x s'
  end.

(** One Unicode white-space character (the characters [str.isspace] accepts)
    at the head of a UTF-8 byte string: the remainder after it. *)
Definition skip_space (s : string) : option string :=
  match s with
  | String c r =>
      let n := N_of_ascii c in
      if ((9 <=? n) && (n <=? 13) || (28 <=? n) && (n <=? 32))%N then Some r
      else match n, r with
           (* U+0085, U+00A0 *)
           | 194%N, String d r1 =>
               if ((N_of_ascii d =? 133) || (N_of_ascii d =? 160))%N
               then Some r1 else None
           (* U+1680 *)
           | 225%N, String d (String e r2) =>
               if ((N_of_ascii d =? 154) && (N_of_ascii e =? 128))%N
               then Some r2 else None
           (* U+2000..U+200A, U+2028, U+2029, U+202F, U+205F *)
           | 226%N, String d (String e r2) =>
               let m := N_of_ascii e in
               if ((N_of_ascii d =? 128) &&
                   ((128 <=? m) && (m <=? 138) || (m =? 168) || (m =? 169)
                    || (m =? 175))
                   || (N_of_ascii d =? 129) && (m =? 159))%N
               then Some r2 else None
           (* U+3000 *)
           | 227%N, String d (String e r2) =>
               if ((N_of_ascii d =? 128) && (N_of_ascii e =? 128))%N
               then Some r2 else None
           | _, _ => None
           end
  | "" => None
  end.

(** [s.lstrip()], by recursion on a bound on the characters to drop. *)
Fixpoint lstrip_n (n : nat) (s : string) : string :=
  match n with
  | O => s
  | S n' => match skip_space s with
            | Some r => lstrip_n n' r
            | None => s
            end
  end.

Definition lstrip (s : string) : string := lstrip_n (String.length s) s.

(** [s.rstrip()]: the longest suffix made of white space only is removed. *)
Fixpoint rstrip (s : string) : string :=
  match s with
  | "" => ""
  | String c s' =>
      if String.eqb (lstrip s) "" then "" else String c (rstrip s')
  end.

(** [s.strip()] *)
Definition strip (s : string) : string := rstrip (lstrip s).

(** [s.replace(old, new)]: left to right, occurrences that do not overlap.
    [skip] counts the characters of a replaced occurrence still to pass. *)
Fixpoint replace_from (old new : string) (skip : nat) (s : string) : string :=
  match s with
  | "" => ""
  | String c s' =>
      match skip with
      | S k => replace_from old new k s'
      | O => if String.prefix old s
             then new +:+ replace_from old new (String.length old - 1) s'
             else String c (replace_from old new O s')
      end
  end.

Fixpoint intersperse (new s : string) : string :=
  match s with
  | "" => ""
  | String c s' => String c (new +:+ intersperse new s')
  end.

Definition str_replace (old new s : string) : string :=
  match old with
  | "" => new +:+ intersperse new s
  | _ => replace_from old new O s
  end.

(** [os.path.join(a, b)] for a relative [b] on a POSIX system. *)
Fixpoint ends_with_slash (a : string) : bool :=
  match a with
  | "" => false
  | String c "" => Ascii.eqb c "/"
  | String _ a' => ends_with_slash a'
  end.

Definition path_join (a b : string) : string :=
  if String.eqb a "" then b
  else if ends_with_slash a then a +:+ b
  else a +:+ "/" +:+ b.

(** [f.truncate()] at byte position [n]: the first [n] bytes are kept. *)
Definition truncate (n : nat) (s : string) : string := String.substring 0 n s.

(** ** JSON values and the encoder behind [json.dump(obj, f, ensure_ascii=False, indent=2)]

    The values the crawler serialises are lists of dicts whose values are
    strings and integers; the encoder below covers these together with
    [None], [True] and [False]. Floats are not modelled. *)

#[local] Unset Elimination Schemes.
Inductive json : Type :=
| JNull
| JBool (b : bool)
| JNum (z : Z)
| JStr (s : string)
| JArr (items : list json)
| JObj (members : list (string * json)).
#[local] Set Elimination Schemes.

Definition hex_digit (n : N) : ascii :=
  ascii_of_N (if (n <? 10)%N then 48 + n else 87 + n).

(** [ESCAPE_DCT]: the replacement of one character matched by [ESCAPE]
    (the control characters, the backslash and the double quote); every other
    character is written as it is. *)
Definition escape_char (c : ascii) : string :=
  let n := N_of_ascii c in
  if (n =? 92)%N then String BACKSLASH (str BACKSLASH)
  else if (n =? 34)%N then String BACKSLASH (str DQUOTE)
  else if (n =? 8)%N then String BACKSLASH "b"
  else if (n =? 12)%N then String BACKSLASH "f"
  else if (n =? 10)%N then String BACKSLASH "n"
  else if (n =? 13)%N then String BACKSLASH "r"
  else if (n =? 9)%N then String BACKSLASH "t"
  else if (n <? 32)%N then
    String BACKSLASH ("u00" +:+ String (hex_digit (n / 16)) (str (hex_digit (n mod 16))))
  else str c.

Fixpoint escape (s : string) : string :=
  match s with
  | "" => ""
  | String c s' => escape_char c +:+ escape s'
  end.

(** [py_encode_basestring] *)
Definition encode_basestring (s : string) : string :=
  String DQUOTE (escape s +:+ str DQUOTE).

(** [int.__repr__] *)
Definition repr_int (z : Z) : string := NilZero.string_of_int (Z.to_int z).

Fixpoint spaces (n : nat) : string :=
  match n with
  | O => ""
  | S n' => String " " (spaces n')
  end.

(** ['\n' + _indent * _current_indent_level] with [_indent = ' ' * 2] *)
Definition newline_indent (lvl : nat) : string := String LF (spaces (2 * lvl)).

(** [_iterencode] at indentation level [lvl], the chunks concatenated. *)
Fixpoint encode (lvl : nat) (v : json) {struct v} : string :=
  match v with
  | JNull => "null"
  | JBool true => "true"
  | JBool false => "false"
  | JNum z => repr_int z
  | JStr s => encode_basestring s
  | JArr [] => "[]"
  | JArr l =>
      "[" +:+ newline_indent (S lvl)
      +:+ String.concat ("," +:+ newline_indent (S lvl)) (map (encode (S lvl)) l)
      +:+ newline_indent lvl +:+ "]"
  | JObj [] => "{}"
  | JObj m =>
      "{" +:+ newline_indent (S lvl)
      +:+ String.concat ("," +:+ newline_indent (S lvl))
            (map (fun kv => encode_basestring (fst kv) +:+ ": " +:+ encode (S lvl) (snd kv)) m)
      +:+ newline_indent lvl +:+ "}"
  end.

Definition json_dumps (v : json) : string := encode 0 v.

(** ** A JSON reader

    What "the document parses as" means: a one-pass reader over the bytes of
    the document, with an explicit stack of the arrays and objects still
    open. It accepts the JSON grammar restricted to integer numbers and to
    [\u] escapes below U+0080, and returns the value read. *)

Inductive frame : Type :=
| InArr (items : list json)
| InObj (members : list (string * json))
| InMember (members : list (string * json)) (key : string).

Inductive mode : Type :=
| MValue (may_close : bool)
| MKey (may_close : bool)
| MColon
| MString (is_key : bool) (acc : string)
| MEscape (is_key : bool) (acc : string)
| MUnicode (is_key : bool) (acc : string) (todo : nat) (code : N)
| MNumber (lexeme : string)
| MLiteral (rest : string) (v : json)
| MAfter
| MDone (v : json).

Definition pstate : Type := mode * list frame.

Definition is_ws (c : ascii) : bool :=
  let n := N_of_ascii c in ((n =? 32) || (n =? 9) || (n =? 10) || (n =? 13))%N.

Definition is_digit (c : ascii) : bool :=
  let n := N_of_ascii c in ((48 <=? n) && (n <=? 57))%N.

Definition hex_value (c : ascii) : option N :=
  let n := N_of_ascii c in
  if ((48 <=? n) && (n <=? 57))%N then Some (n - 48)%N
  else if ((97 <=? n) && (n <=? 102))%N then Some (n - 87)%N
  else if ((65 <=? n) && (n <=? 70))%N then Some (n - 55)%N
  else None.

(** A value has been read: it goes into the innermost open container. *)
Definition complete (v : json) (k : list frame) : option pstate :=
  match k with
  | [] => Some (MDone v, [])
  | InArr items :: k' => Some (MAfter, InArr (items ++ [v]) :: k')
  | InMember members key :: k' => Some (MAfter, InObj (members ++ [(key, v)]) :: k')
  | InObj _ :: _ => None
  end.

Definition finish_string (is_key : bool) (s : string) (k : list frame) : option pstate :=
  if is_key then
    match k with
    | InObj members :: k' => Some (MColon, InMember members s :: k')
    | _ => None
    end
  else complete (JStr s) k.

(** The integer a number lexeme denotes: an optional minus sign and decimal
    digits without a leading zero. *)
Definition number_value (lexeme : string) : option Z :=
  match NilZero.int_of_string lexeme with
  | Some d => let z := Z.of_int d in
              if String.eqb (repr_int z) lexeme then Some z else None
  | None => None
  end.

Definition finish_number (lexeme : string) (k : list frame) : option pstate :=
  match number_value lexeme with
  | Some z => complete (JNum z) k
  | None => None
  end.

(** After a value: a separator, the end of the enclosing container, or
    white space. *)
Definition step_after (st : pstate) (c : ascii) : option pstate :=
  match st with
  | (MAfter, InArr items :: k) =>
      if is_ws c then Some st
      else if Ascii.eqb c "," then Some (MValue false, InArr items :: k)
      else if Ascii.eqb c "]" then complete (JArr items) k
      else None
  | (MAfter, InObj members :: k) =>
      if is_ws c then Some st
      else if Ascii.eqb c "," then Some (MKey false, InObj members :: k)
      else if Ascii.eqb c "}" then complete (JObj members) k
      else None
  | (MDone v, []) => if is_ws c then Some st else None
  | _ => None
  end.

Definition unescape (c : ascii) : option ascii :=
  let n := N_of_ascii c in
  if ((n =? 34) || (n =? 92) || (n =? 47))%N then Some c
  else if (n =? 98)%N then Some "008"%char
  else if (n =? 102)%N then Some "012"%char
  else if (n =? 110)%N then Some "010"%char
  else if (n =? 114)%N then Some "013"%char
  else if (n =? 116)%N then Some "009"%char
  else None.

Definition step (st : pstate) (c : ascii) : option pstate :=
  let '(m, k) := st in
  match m with
  | MValue may_close =>
      if is_ws c then Some st
      else if Ascii.eqb c "[" then Some (MValue true, InArr [] :: k)
      else if Ascii.eqb c "{" then Some (MKey true, InObj [] :: k)
      else if Ascii.eqb c DQUOTE then Some (MString false "", k)
      else if Ascii.eqb c "-" || is_digit c then Some (MNumber (str c), k)
      else if Ascii.eqb c "n" then Some (MLiteral "ull" JNull, k)
      else if Ascii.eqb c "t" then Some (MLiteral "rue" (JBool true), k)
      else if Ascii.eqb c "f" then Some (MLiteral "alse" (JBool false), k)
      else if Ascii.eqb c "]" && may_close then
        match k with
        | InArr [] :: k' => complete (JArr []) k'
        | _ => None
        end
      else None
  | MKey may_close =>
      if is_ws c then Some st
      else if Ascii.eqb c DQUOTE then Some (MString true "", k)
      else if Ascii.eqb c "}" && may_close then
        match k with
        | InObj [] :: k' => complete (JObj []) k'
        | _ => None
        end
      else None
  | MColon =>
      if is_ws c then Some st
      else if Ascii.eqb c ":" then Some (MValue false, k)
      else None
  | MString is_key acc =>
      if Ascii.eqb c DQUOTE then finish_string is_key acc k
      else if Ascii.eqb c BACKSLASH then Some (MEscape is_key acc, k)
      else if (N_of_ascii c <? 32)%N then None
      else Some (MString is_key (acc +:+ str c), k)
  | MEscape is_key acc =>
      if Ascii.eqb c "u" then Some (MUnicode is_key acc 4 0%N, k)
      else match unescape c with
           | Some c' => Some (MString is_key (acc +:+ str c'), k)
           | None => None
           end
  | MUnicode is_key acc todo code =>
      match hex_value c with
      | Some h =>
          let code' := (16 * code + h)%N in
          match todo with
          | 1%nat => if (code' <? 128)%N
                     then Some (MString is_key (acc +:+ str (ascii_of_N code')), k)
                     else None
          | S todo' => Some (MUnicode is_key acc todo' code', k)
          | O => None
          end
      | None => None
      end
  | MNumber lexeme =>
      if is_digit c then Some (MNumber (lexeme +:+ str c), k)
      else match finish_number lexeme k with
           | Some st' => step_after st' c
           | None => None
           end
  | MLiteral rest v =>
      match rest with
      | String c' rest' =>
          if Ascii.eqb c c' then
            match rest' with
            | "" => complete v k
            | _ => Some (MLiteral rest' v, k)
            end
          else None
      | "" => None
      end
  | MAfter | MDone _ => step_after st c
  end.

Fixpoint feed (st : pstate) (s : string) : option pstate :=
  match s with
  | "" => Some st
  | String c s' => match step st c with
                   | Some st' => feed st' s'
                   | None => None
                   end
  end.

(** At the end of the input the reader must hold one complete value. *)
Definition finish (st : pstate) : option json :=
  match st with
  | (MDone v, []) => Some v
  | (MNumber lexeme, []) => option_map JNum (number_value lexeme)
  | _ => None
  end.

(** [json.loads] *)
Definition json_loads (s : string) : option json :=
  match feed (MValue false, []) s with
  | Some st => finish st
  | None => None
  end.

(** ** The browser as the crawler sees it

    Every awaited Playwright call either returns or raises; what it does is
    given by the page being visited. *)

(** What an awaited call raises: [PlaywrightTimeoutError] or another
    subclass of [Exception]. *)
Inductive exn : Type :=
| PlaywrightTimeoutError
| Exception (msg : string).

Inductive res (A : Type) : Type :=
| Ok (a : A)
| Raise (e : exn).
Arguments Ok {A} a.
Arguments Raise {A} e.

Definition bind {A B : Type} (r : res A) (f : A -> res B) : res B :=
  match r with
  | Ok a => f a
  | Raise e => Raise e
  end.

Notation "x <- r ;; k" := (bind r (fun x => k))
  (at level 100, r at next level, right associativity, only parsing).

(** An [ElementHandle]: [text_content()] and [get_attribute('href')]. *)
Record Element : Type := {
  text_content : res (option string);
  get_href : res (option string)
}.

(** One [.news-list li] element: [query_selector('a')] and [query_selector('p')]. *)
Record Item : Type := {
  query_a : res (option Element);
  query_p : res (option Element)
}.

(** The [a.next] element: [click()], then [page.wait_for_load_state('networkidle')]. *)
Record NextButton : Type := {
  click : res unit;
  load_after_click : res unit
}.

(** The page shown while [current_page] has a given value. [completion] is
    the order in which the coroutines handed to [asyncio.gather] reach their
    end. *)
Record PageView : Type := {
  wait_news_list : res unit;
  query_items : res (list Item);
  completion : list Item -> list Item;
  query_next : res (option NextButton)
}.

(** [page.goto(start_url)], [page.wait_for_load_state('networkidle')] and
    [page.wait_for_selector('.news-item')] on the start page; the page shown
    for each value of [current_page]; [now] is the time stamp
    [datetime.now().strftime("%Y%m%d_%H%M%S")] taken at the first write. *)
Record Browser : Type := {
  goto : res unit;
  wait_load_state : res unit;
  wait_news_item : res unit;
  view : Z -> PageView;
  now : string
}.

(** ** [SinaNewsCrawler] *)

(** The dict appended to [self.results] for a matching item. *)
Record NewsRecord : Type := {
  title : string;
  summary : string;
  url : string;
  page : Z
}.

(** The attributes of a crawler; [filename] is [None] until [save_results]
    sets the attribute. *)
Record SinaNewsCrawler : Type := {
  keywords : list string;
  max_pages : Z;
  output_dir : string;
  results : list NewsRecord;
  filename : option string
}.

(** [__init__] *)
Definition init (keywords : list string) (max_pages : Z) (output_dir : string)
  : SinaNewsCrawler :=
  {| keywords := keywords; max_pages := max_pages; output_dir := output_dir;
     results := []; filename := None |}.

Definition set_results (self : SinaNewsCrawler) (rs : list NewsRecord) : SinaNewsCrawler :=
  {| keywords := keywords self; max_pages := max_pages self;
     output_dir := output_dir self; results := rs; filename := filename self |}.

Definition set_filename (self : SinaNewsCrawler) (fn : string) : SinaNewsCrawler :=
  {| keywords := keywords self; max_pages := max_pages self;
     output_dir := output_dir self; results := results self; filename := Some fn |}.

(** [text.strip() if text else ""] *)
Definition strip_or_empty (text : option string) : string :=
  match text with
  | Some (String c t) => strip (String c t)
  | _ => ""
  end.

(** [any(kw in title or kw in summary for kw in self.keywords)] *)
Definition any_keyword (keywords : list string) (title summary : string) : bool :=
  existsb (fun kw => str_in kw title || str_in kw summary) keywords.

(** The keyword filter of [process_news_item]: the item is kept unless
    [self.keywords and not any(...)]. *)
Definition matches (keywords : list string) (title summary : string) : bool :=
  negb (negb (bool_decide (keywords = [])) && negb (any_keyword keywords title summary)).

(** The [try] block of [process_news_item]: the record to append, if any. *)
Definition extract (keywords : list string) (item : Item) (page_num : Z)
  : res (option NewsRecord) :=
  title_elem <- query_a item ;;
  match title_elem with
  | None => Ok None
  | Some title_elem =>
      title <- text_content title_elem ;;
      let title := strip_or_empty title in
      summary_elem <- query_p item ;;
      summary <- match summary_elem with
                 | Some e => text_content e
                 | None => Ok (Some "")
                 end ;;
      let summary := strip_or_empty summary in
      link <- get_href title_elem ;;
      match link with
      | None | Some "" => Ok None
      | Some link =>
          if matches keywords title summary
          then Ok (Some {| title := title; summary := summary; url := link; page := page_num |})
          else Ok None
      end
  end.

(** [process_news_item]: an exception raised inside the [try] block is
    printed and dropped. *)
Definition process_news_item (self : SinaNewsCrawler) (item : Item) (page_num : Z)
  : SinaNewsCrawler :=
  match extract (keywords self) item page_num with
  | Ok (Some r) => set_results self (results self ++ [r])
  | Ok None => self
  | Raise _ => self
  end.

(** [scrape_page]: the value returned and the crawler afterwards. *)
Definition scrape_page (self : SinaNewsCrawler) (pv : PageView) (page_num : Z)
  : bool * SinaNewsCrawler :=
  match wait_news_list pv with
  | Raise _ => (false, self)
  | Ok _ =>
      match query_items pv with
      | Raise _ => (false, self)
      | Ok news_items =>
          (true, fold_left (fun self item => process_news_item self item page_num)
                   (completion pv news_items) self)
      end
  end.

(** ** The result store *)

(** The dict [process_news_item] appends, with its keys in insertion order. *)
Definition record_json (r : NewsRecord) : json :=
  JObj [("title", JStr (title r)); ("summary", JStr (summary r));
        ("url", JStr (url r)); ("page", JNum (page r))].

(** [self.results] as [json.dump] sees it. *)
Definition batch_json (rs : list NewsRecord) : json := JArr (map record_json rs).

(** The texts [save_results] writes around a batch: ['[\n'], ['\n]'] and
    [',\n']. *)
Definition OPEN : string := String "[" (str LF).
Definition CLOSE : string := String LF "]".
Definition SEP : string := String "," (str LF).

(** [os.path.join(self.output_dir, f"sina_news_{timestamp}.json")] *)
Definition default_name (self : SinaNewsCrawler) (now : string) : string :=
  path_join (output_dir self) ("sina_news_" +:+ now +:+ ".json").

(** [save_results]: the outcome, the crawler and the files afterwards. *)
Definition save_results (incremental : bool) (now : string)
    (self : SinaNewsCrawler) (fs : gmap string string)
  : res unit * SinaNewsCrawler * gmap string string :=
  match results self with
  | [] => (Ok tt, self, fs)
  | _ =>
      let fn := match filename self with
                | Some fn => fn
                | None => default_name self now
                end in
      let self := set_filename self fn in
      let append := incremental && bool_decide (is_Some (fs !! fn)) in
      (* open(self.filename, mode) *)
      let fs := if append then fs else <[fn := ""]> fs in
      let content := default "" (fs !! fn) in
      let body := json_dumps (batch_json (results self)) in
      if negb append || negb (bool_decide (is_Some (fs !! fn)))
         || (String.length content =? 0)%nat
      then (Ok tt, set_results self [],
            <[fn := content +:+ OPEN +:+ body +:+ CLOSE]> fs)
      else if (String.length content <? 2)%nat
      then (Raise (Exception "negative seek position"), self, fs)
      else (Ok tt, set_results self [],
            <[fn := truncate (String.length content - 2) content
                    +:+ SEP +:+ body +:+ CLOSE]> fs)
  end.

(** ** The crawl loop *)

(** A call of [scrape_page] and what it returned. *)
Inductive event : Type :=
| Scraped (page_num : Z) (success : bool).

Record outcome : Type := {
  status : res unit;
  crawler : SinaNewsCrawler;
  files : gmap string string;
  trace : list event
}.

(** The page-turning block: [true] when [current_page] is incremented,
    [false] on [break]. *)
Definition turn_page (pv : PageView) : bool :=
  match query_next pv with
  | Ok (Some next_btn) =>
      match click next_btn with
      | Ok _ => match load_after_click next_btn with
                | Ok _ => true
                | Raise _ => false
                end
      | Raise _ => false
      end
  | Ok None => false
  | Raise _ => false
  end.

(** [if self.results: self.save_results(incremental=True)] *)
Definition persist (now : string) (self : SinaNewsCrawler) (fs : gmap string string)
  : res unit * SinaNewsCrawler * gmap string string :=
  match results self with
  | [] => (Ok tt, self, fs)
  | _ => save_results true now self fs
  end.

(** The [while] loop of [run]; [None] when [fuel] iterations did not reach
    its end. *)
Fixpoint crawl (fuel : nat) (b : Browser) (self : SinaNewsCrawler)
    (fs : gmap string string) (tr : list event) (current_page : Z)
  : option outcome :=
  if negb (current_page <=? max_pages self) then
    Some {| status := Ok tt; crawler := self; files := fs; trace := tr |}
  else
    match fuel with
    | O => None
    | S fuel' =>
        let pv := view b current_page in
        let '(success, self) := scrape_page self pv current_page in
        let tr := tr ++ [Scraped current_page success] in
        if negb success then
          Some {| status := Ok tt; crawler := self; files := fs; trace := tr |}
        else
          let '(saved, self, fs) := persist (now b) self fs in
          match saved with
          | Raise e => Some {| status := Raise e; crawler := self; files := fs; trace := tr |}
          | Ok _ =>
              if current_page <? max_pages self then
                if turn_page pv
                then crawl fuel' b self fs tr (current_page + 1)
                else Some {| status := Ok tt; crawler := self; files := fs; trace := tr |}
              else Some {| status := Ok tt; crawler := self; files := fs; trace := tr |}
          end
    end.

(** The start page: [goto], [wait_for_load_state] and
    [wait_for_selector('.news-item')]. *)
Definition start_page (b : Browser) : res unit :=
  _ <- goto b ;; _ <- wait_load_state b ;; wait_news_item b.

(** [run]: the start page, then the loop. *)
Definition run (b : Browser) (self : SinaNewsCrawler) (fs : gmap string string)
  : option outcome :=
  match start_page b with
  | Raise e => Some {| status := Raise e; crawler := self; files := fs; trace := [] |}
  | Ok _ => crawl (Z.to_nat (max_pages self)) b self fs [] 1
  end.

(** The clean-up at the end of [main]. The file is reopened as text; the
    content modelled is text the run can write (UTF-8 of the records'
    strings, line feeds as the only line ends), which reads back as it was
    written. *)
Definition finalize (self : SinaNewsCrawler) (fs : gmap string string)
  : res unit * gmap string string :=
  match filename self with
  | Some fn =>
      match fs !! fn with
      | Some content => (Ok tt, <[fn := str_replace (String "," CLOSE) CLOSE content]> fs)
      | None => (Raise (Exception "No such file or directory"), fs)
      end
  | None => (Ok tt, fs)
  end.

(** [main] with the parsed arguments: the exit status of the process (0, or
    1 after an exception nobody handled), the files and the trace. *)
Definition main (b : Browser) (fs : gmap string string)
    (keywords : list string) (max_pages : Z)
  : option (Z * gmap string string * list event) :=
  match run b (init keywords max_pages "output") fs with
  | None => None
  | Some o =>
      match status o with
      | Raise _ => Some (1, files o, trace o)
      | Ok _ =>
          match finalize (crawler o) (files o) with
          | (Ok _, fs') => Some (0, fs', trace o)
          | (Raise _, fs') => Some (1, fs', trace o)
          end
      end
  end.

(** ** Vocabulary of the statements *)

(** Induction on JSON values, with the hypothesis for every element of an
    array and for every member of an object. *)
Definition json_ind (P : json → Prop)
    (Hnull : P JNull) (Hbool : ∀ b, P (JBool b)) (Hnum : ∀ z, P (JNum z))
    (Hstr : ∀ s, P (JStr s))
    (Harr : ∀ l, Forall P l → P (JArr l))
    (Hobj : ∀ m, Forall (λ kv, P kv.2) m → P (JObj m)) : ∀ v, P v :=
  fix go (v : json) : P v :=
    match v with
    | JNull => Hnull
    | JBool b => Hbool b
    | JNum z => Hnum z
    | JStr s => Hstr s
    | JArr l =>
        Harr l ((fix go_items (l : list json) : Forall P l :=
                   match l with
                   | [] => List.Forall_nil P
                   | x :: l' => List.Forall_cons P x l' (go x) (go_items l')
                   end) l)
    | JObj m =>
        Hobj m ((fix go_members (m : list (string * json)) : Forall (λ kv, P kv.2) m :=
                   match m with
                   | [] => List.Forall_nil _
                   | kv :: m' => List.Forall_cons _ kv m' (go kv.2) (go_members m')
                   end) m)
    end.

(** What may follow a value: a character that is not a digit. *)
Definition delimited (rest : string) : Prop :=
  match rest with
  | "" => False
  | String c _ => is_digit c = false
  end.

(** What may follow the encoding of [v]: a number ends where its digits
    end, every other value ends by itself. *)
Definition follows (v : json) (rest : string) : Prop :=
  match v with
  | JNum _ => delimited rest
  | _ => True
  end.

(** The reader on an encoded value: the value is read back and handed to
    the enclosing container. *)
Definition reads_back (v : json) : Prop :=
  ∀ lvl b k rest, follows v rest →
    feed (MValue b, k) (encode lvl v +:+ rest) = complete v k ≫= λ st, feed st rest.

(** The text of the output file after the batches [bs] have been written:
    the opening bracket, the batches as [json.dump] writes them, separated
    by a comma and a line feed, and the closing bracket. *)
Definition document (bs : list (list NewsRecord)) : string :=
  OPEN +:+ String.concat SEP (map (λ rs, json_dumps (batch_json rs)) bs) +:+ CLOSE.

(** How much of [",\n]"] the characters read so far end with. *)
Inductive scan : Type := Idle | Comma | CommaLF | Hit.

Definition scan_step (q : scan) (c : ascii) : scan :=
  match q with
  | Hit => Hit
  | _ =>
      if Ascii.eqb c "," then Comma
      else match q with
           | Comma => if Ascii.eqb c LF then CommaLF else Idle
           | CommaLF => if Ascii.eqb c "]" then Hit else Idle
           | _ => Idle
           end
  end.

Fixpoint scan_run (q : scan) (s : string) : scan :=
  match s with
  | "" => q
  | String c s' => scan_run (scan_step q c) s'
  end.

(** Text after which no occurrence is under way, whatever came before. *)
Definition settles (s : string) : Prop := ∀ q, q ≠ Hit → scan_run q s = Idle.

(** No line feed has been read after the last comma. *)
Definition calm (q : scan) : bool :=
  match q with Idle | Comma => true | _ => false end.

(** The crawler and its file: [bs] are the batches written so far. *)
Definition stored (now : string) (self : SinaNewsCrawler) (fs : gmap string string)
    (bs : list (list NewsRecord)) : Prop :=
  match filename self with
  | None => bs = [] ∧ fs !! default_name self now = None
  | Some fn => bs ≠ [] ∧ fs !! fn = Some (document bs)
  end.

(** [self.filename] once [save_results] has set it. *)
Definition file_name (now : string) (self : SinaNewsCrawler) : string :=
  default (default_name self now) (filename self).

(** The records one item contributes to [self.results]. *)
Definition kept (keywords : list string) (page_num : Z) (item : Item) : list NewsRecord :=
  match extract keywords item page_num with
  | Ok (Some r) => [r]
  | _ => []
  end.

(** What every record the crawler appends satisfies. *)
Definition good (keywords : list string) (lo hi : Z) (r : NewsRecord) : Prop :=
  url r ≠ "" ∧ lo ≤ page r ≤ hi ∧ matches keywords (title r) (summary r) = true.

(** The conditions under which the page-turning block leaves the loop: the
    page limit is reached, there is no [a.next] element, or looking for it,
    clicking it or waiting for the load raises. *)
Definition stops_after (limit cur : Z) (pv : PageView) : Prop :=
  limit ≤ cur
  ∨ query_next pv = Ok None
  ∨ (∃ e, query_next pv = Raise e)
  ∨ (∃ next_btn e, query_next pv = Ok (Some next_btn)
                   ∧ (click next_btn = Raise e ∨ load_after_click next_btn = Raise e)).

(** The pages on which [scrape_page] returned [True]. *)
Definition processed (tr : list event) : list Z :=
  omap (λ e, match e with Scraped n true => Some n | _ => None end) tr.

(** The result store driven the way the crawl loop drives it: a batch is put
    in [self.results] and [save_results(incremental=True)] is called. *)
Fixpoint append_batches (now : string) (bs : list (list NewsRecord))
    (self : SinaNewsCrawler) (fs : gmap string string)
  : res unit * SinaNewsCrawler * gmap string string :=
  match bs with
  | [] => (Ok tt, self, fs)
  | rs :: bs' =>
      match save_results true now (set_results self rs) fs with
      | (Ok _, self', fs') => append_batches now bs' self' fs'
      | failed => failed
      end
  end.

(** ** Sample pages *)

Definition sample_element (text href : string) : Element :=
  {| text_content := Ok (Some text); get_href := Ok (Some href) |}.

Definition sample_item (title summary href : string) : Item :=
  {| query_a := Ok (Some (sample_element title href));
     query_p := Ok (Some (sample_element summary "")) |}.

Definition broken_item : Item :=
  {| query_a := Raise (Exception "element is detached"); query_p := Ok None |}.

Definition linked_page (items : list Item) : PageView :=
  {| wait_news_list := Ok tt; query_items := Ok items; completion := reverse;
     query_next := Ok (Some {| click := Ok tt; load_after_click := Ok tt |}) |}.

Definition last_page (items : list Item) : PageView :=
  {| wait_news_list := Ok tt; query_items := Ok items; completion := reverse;
     query_next := Ok None |}.

Definition stalled_page : PageView :=
  {| wait_news_list := Raise PlaywrightTimeoutError; query_items := Ok [];
     completion := id; query_next := Ok None |}.

Definition sample_site (pages : Z → PageView) : Browser :=
  {| goto := Ok tt; wait_load_state := Ok tt; wait_news_item := Ok tt;
     view := pages; now := "20240101_120000" |}.


Definition market_site : Browser :=
  sample_site (λ n,
    if n =? 1
    then linked_page [sample_item " market up " "s1" "http://a"; broken_item;
                      sample_item "x" "y" "http://b"; sample_item "" "market" "http://c"]
    else last_page [sample_item "the market" "" "http://d"]).

(** ** Vocabulary of the further properties *)

(** The records page [n] contributes to [self.results]: those of its items,
    in the order in which their coroutines complete. *)
Definition page_batch (b : Browser) (keywords : list string) (n : Z) : list NewsRecord :=
  match query_items (view b n) with
  | Ok news_items => completion (view b n) news_items ≫= kept keywords n
  | Raise _ => []
  end.

(** The batches [run] writes for the pages [pages]: a page without a record
    writes none. *)
Definition batches_of (b : Browser) (keywords : list string) (pages : list Z)
  : list (list NewsRecord) :=
  omap (λ n, match page_batch b keywords n with
             | [] => None
             | rs => Some rs
             end) pages.

(** Events for the pages [cur], [cur + 1], ... in this order, a scrape that
    failed being the last one. *)
Fixpoint in_order (cur : Z) (evs : list event) : Prop :=
  match evs with
  | [] => True
  | Scraped n ok :: rest => n = cur ∧ (ok = false → rest = []) ∧ in_order (cur + 1) rest
  end.

(** Reading a document back: the record an object with the four keys of
    [process_news_item] denotes, the batch an array of such objects denotes,
    and the batches a document denotes. *)
Definition record_of_json (v : json) : option NewsRecord :=
  match v with
  | JObj [(k1, JStr t); (k2, JStr s); (k3, JStr u); (k4, JNum p)] =>
      if String.eqb k1 "title" && String.eqb k2 "summary"
         && String.eqb k3 "url" && String.eqb k4 "page"
      then Some {| title := t; summary := s; url := u; page := p |}
      else None
  | _ => None
  end.

Definition batch_of_json (v : json) : option (list NewsRecord) :=
  match v with
  | JArr items => mapM record_of_json items
  | _ => None
  end.

Definition parse_document (s : string) : option (list (list NewsRecord)) :=
  match json_loads s with
  | Some (JArr items) => mapM batch_of_json items
  | _ => None
  end.

(** * Proofs *)

(** ** Examples *)

Example strip_ex :
  strip (String "009" (" a b " +:+ String "227" (String "128" (String "128" (str LF))))) = "a b".
Proof. vm_compute. reflexivity. Qed.
Example replace_ex : str_replace "aa" "b" "aaaxaa" = "baxb".
Proof. reflexivity. Qed.
Example replace_ex2 : str_replace "" "-" "ab" = "-a-b-".
Proof. reflexivity. Qed.
Example main_ex :
  main market_site ∅ ["market"] 5 =
  Some (0,
        {[ "output/sina_news_20240101_120000.json" :=
             document
               [ [ {| title := ""; summary := "market"; url := "http://c"; page := 1 |};
                   {| title := "market up"; summary := "s1"; url := "http://a"; page := 1 |} ];
                 [ {| title := "the market"; summary := ""; url := "http://d"; page := 2 |} ] ] ]},
        [Scraped 1 true; Scraped 2 true]).
Proof. by vm_compute. Qed.

Example in_ex : str_in "ws" "news" = true /\ str_in "" "" = true /\ str_in "x" "news" = false.
Proof. repeat split. Qed.

Example dumps_ex :
  let q := str DQUOTE in
  json_dumps (JArr [JObj [("a", JNum (-12)); ("b", JStr (String LF "x"))]; JArr []]) =
  String.concat (str LF)
    [ "[";
      "  {";
      "    " +:+ q +:+ "a" +:+ q +:+ ": -12,";
      "    " +:+ q +:+ "b" +:+ q +:+ ": " +:+ q +:+ str BACKSLASH +:+ "nx" +:+ q;
      "  },";
      "  []";
      "]" ].
Proof. vm_compute. reflexivity. Qed.

Example dumps_escapes_ex :
  let q := str DQUOTE in
  let bs := str BACKSLASH in
  json_dumps
    (JArr [JStr (String "001" (String "031" (String "127" (String DQUOTE
             (String BACKSLASH (String "/" (String "008" (String "012"
             (String "013" (String "009" ""))))))))));
           JObj []; JNull; JBool true; JNum 0]) =
  String.concat (str LF)
    [ "[";
      "  " +:+ q +:+ bs +:+ "u0001" +:+ bs +:+ "u001f" +:+ str "127" +:+ bs +:+ q
        +:+ bs +:+ bs +:+ "/" +:+ bs +:+ "b" +:+ bs +:+ "f" +:+ bs +:+ "r"
        +:+ bs +:+ "t" +:+ q +:+ ",";
      "  {},";
      "  null,";
      "  true,";
      "  0";
      "]" ].
Proof. vm_compute. reflexivity. Qed.

Example loads_ex :
  json_loads (json_dumps (JArr [JObj [("a", JNum (-12)); ("b", JStr (String LF (String "001" "x")))]; JArr []; JNull; JBool true; JNum 0]))
  = Some (JArr [JObj [("a", JNum (-12)); ("b", JStr (String LF (String "001" "x")))]; JArr []; JNull; JBool true; JNum 0]).
Proof. vm_compute. reflexivity. Qed.

Example loads_bad : json_loads "[1,]" = None /\ json_loads "[01]" = None /\ json_loads "[1] x" = None
   /\ json_loads " [ 1 , 2 ] " = Some (JArr [JNum 1; JNum 2]) /\ json_loads "7" = Some (JNum 7)
   /\ json_loads "[-]" = None /\ json_loads "{}" = Some (JObj []) /\ json_loads "[" = None.
Proof. vm_compute. repeat split. Qed.

(** ** Strings *)

Lemma sapp_cons c s t : String c s +:+ t = String c (s +:+ t).
Proof. reflexivity. Qed.

Lemma sapp_nil_l s : "" +:+ s = s.
Proof. reflexivity. Qed.

Lemma sapp_nil_r s : s +:+ "" = s.
Proof. induction s as [|c s IH]; [done|]. by rewrite sapp_cons, IH. Qed.

Lemma sapp_assoc s t u : (s +:+ t) +:+ u = s +:+ t +:+ u.
Proof. induction s as [|c s IH]; [done|]. by rewrite !sapp_cons, IH. Qed.

Lemma length_sapp s t : String.length (s +:+ t) = (String.length s + String.length t)%nat.
Proof. induction s as [|c s IH]; [done|]. rewrite sapp_cons. simpl. by rewrite IH. Qed.

Lemma truncate_app s t : truncate (String.length s) (s +:+ t) = s.
Proof.
  unfold truncate. induction s as [|c s IH].
  - by destruct t.
  - rewrite sapp_cons. simpl. by rewrite IH.
Qed.

Lemma prefix_app s t : String.prefix s (s +:+ t) = true.
Proof.
  induction s as [|c s IH]; [by destruct t|].
  rewrite sapp_cons. simpl. by destruct (ascii_dec c c).
Qed.

Lemma prefix_inv s t : String.prefix s t = true → ∃ u, t = s +:+ u.
Proof.
  revert t. induction s as [|c s IH]; intros t H.
  - by exists t.
  - destruct t as [|d t]; [done|]. simpl in H.
    destruct (ascii_dec c d) as [->|]; [|done].
    destruct (IH _ H) as [u ->]. by exists u.
Qed.
(** [str_in] is the substring relation. *)
Lemma str_in_spec x s :
str_in x s = true ↔ ∃ pre post, s = pre +:+ x +:+ post.
Proof.
split.
- induction s as [|c s IH]; cbn [str_in]; intros H.
  + apply orb_true_iff in H as [H|H]; [|done].
    destruct (prefix_inv _ _ H) as [u ->]. by exists "", u.
  + apply orb_true_iff in H as [H|H].
    * destruct (prefix_inv _ _ H) as [u ->]. by exists "", u.
    * destruct (IH H) as (pre & post & ->). by exists (String c pre), post.
- intros (pre & post & ->). induction pre as [|c pre IH].
  + rewrite sapp_nil_l.
    assert (String.prefix x (x +:+ post) = true) as H by apply prefix_app.
    destruct (x +:+ post); cbn [str_in]; by rewrite H.
  + rewrite sapp_cons. cbn [str_in]. rewrite IH. apply orb_true_r.
Qed.

(** *** The reader on the encoder's output *)

Lemma feed_app st s t :
  feed st (s +:+ t) = feed st s ≫= λ st', feed st' t.
Proof.
  revert st. induction s as [|c s IH]; intros st; [done|].
  rewrite sapp_cons. cbn [feed]. destruct (step st c); [apply IH|done].
Qed.

Lemma feed_cons st c s :
  feed st (String c s) = step st c ≫= λ st', feed st' s.
Proof. cbn [feed]. by destruct (step st c). Qed.

Lemma feed_spaces st n rest :
  step st " " = Some st → feed st (spaces n +:+ rest) = feed st rest.
Proof.
  intros H. induction n as [|n IH]; [done|].
  cbn [spaces]. rewrite sapp_cons, feed_cons, H. apply IH.
Qed.

Lemma feed_newline_indent st lvl rest :
  step st LF = Some st → step st " " = Some st →
  feed st (newline_indent lvl +:+ rest) = feed st rest.
Proof.
  intros H1 H2. unfold newline_indent.
  rewrite sapp_cons, feed_cons, H1. cbn. by apply feed_spaces.
Qed.

Lemma feed_escape_char b acc k c :
  feed (MString b acc, k) (escape_char c) = Some (MString b (acc +:+ str c), k).
Proof. destruct c as [[] [] [] [] [] [] [] []]; reflexivity. Qed.

Lemma feed_escape b acc k s rest :
  feed (MString b acc, k) (escape s +:+ rest) = feed (MString b (acc +:+ s), k) rest.
Proof.
  revert acc. induction s as [|c s IH]; intros acc.
  - by rewrite sapp_nil_r.
  - cbn [escape]. rewrite sapp_assoc, feed_app, feed_escape_char. cbn.
    rewrite IH. by rewrite sapp_assoc.
Qed.

Lemma feed_char st c t :
  feed st (String c "" +:+ t) = step st c ≫= λ st', feed st' t.
Proof. apply feed_cons. Qed.

Lemma feed_app_cons st c s t :
  feed st (String c s +:+ t) = step st c ≫= λ st', feed st' (s +:+ t).
Proof. apply feed_cons. Qed.

(** One character through the reader: [st'] is the state [step] computes. *)
Ltac read_char st' :=
  first [rewrite feed_char | rewrite feed_app_cons | rewrite feed_cons];
  match goal with
  | |- context [step ?st ?c] => change (step st c) with (Some st')
  end;
  cbn [mbind option_bind].

Lemma feed_basestring b k s rest :
  feed (MValue b, k) (encode_basestring s +:+ rest) =
  complete (JStr s) k ≫= λ st, feed st rest.
Proof.
  unfold encode_basestring. read_char (MString false "", k).
  rewrite sapp_assoc, feed_escape, sapp_nil_l. unfold str.
  by rewrite sapp_cons, feed_cons.
Qed.

Lemma feed_key b m k s rest :
  feed (MKey b, InObj m :: k) (encode_basestring s +:+ rest) =
  feed (MColon, InMember m s :: k) rest.
Proof.
  unfold encode_basestring. read_char (MString true "", InObj m :: k).
  rewrite sapp_assoc, feed_escape, sapp_nil_l. unfold str.
  by rewrite sapp_cons, feed_cons.
Qed.

Lemma number_value_repr z : number_value (repr_int z) = Some z.
Proof.
  unfold number_value, repr_int.
  rewrite NilZero.isi.
  - rewrite DecimalZ.of_to. by rewrite String.eqb_refl.
  - destruct z; simpl; try done.
    intros [= H]. by apply (Unsigned.to_uint_nonnil p).
  - destruct z; simpl; try done.
    intros [= H]. by apply (Unsigned.to_uint_nonnil p).
Qed.

Lemma step_number_digit lexeme k c :
  is_digit c = true → step (MNumber lexeme, k) c = Some (MNumber (lexeme +:+ str c), k).
Proof. intros H. cbn [step]. by rewrite H. Qed.

Lemma step_value_digit b k c :
  is_digit c = true → step (MValue b, k) c = Some (MNumber (str c), k).
Proof. destruct c as [[] [] [] [] [] [] [] []]; intros H; try discriminate H; reflexivity. Qed.

Lemma feed_uint d lexeme k rest :
  feed (MNumber lexeme, k) (NilEmpty.string_of_uint d +:+ rest) =
  feed (MNumber (lexeme +:+ NilEmpty.string_of_uint d), k) rest.
Proof.
  revert lexeme.
  induction d as [|d IH|d IH|d IH|d IH|d IH|d IH|d IH|d IH|d IH|d IH]; intros lexeme;
    cbn [NilEmpty.string_of_uint];
    [by rewrite sapp_nil_r|
     rewrite sapp_cons, feed_cons, step_number_digit by reflexivity;
     cbn [mbind option_bind]; rewrite IH, sapp_assoc; reflexivity ..].
Qed.

Lemma feed_nonnil_uint d b k rest :
  d ≠ Decimal.Nil →
  feed (MValue b, k) (NilZero.string_of_uint d +:+ rest) =
  feed (MNumber (NilZero.string_of_uint d), k) rest.
Proof.
  intros Hnil.
  destruct d as [|d|d|d|d|d|d|d|d|d|d]; [done|..];
    cbn [NilZero.string_of_uint NilEmpty.string_of_uint];
    rewrite sapp_cons, feed_cons, step_value_digit by reflexivity;
    cbn [mbind option_bind]; by rewrite feed_uint.
Qed.

Lemma feed_repr_int z b k rest :
  feed (MValue b, k) (repr_int z +:+ rest) = feed (MNumber (repr_int z), k) rest.
Proof.
  unfold repr_int. destruct z as [|p|p]; cbn [Z.to_int NilZero.string_of_int].
  - reflexivity.
  - apply feed_nonnil_uint, Unsigned.to_uint_nonnil.
  - rewrite sapp_cons, feed_cons.
    change (step (MValue b, k) "-") with (Some (MNumber "-", k)).
    cbn [mbind option_bind].
    pose proof (Unsigned.to_uint_nonnil p) as Hnil.
    destruct (Pos.to_uint p) as [|d|d|d|d|d|d|d|d|d|d]; [done|..];
      cbn [NilZero.string_of_uint]; by rewrite feed_uint.
Qed.

(** A state reached by [complete] takes its next character with [step_after]. *)
Lemma step_complete v k st c :
  complete v k = Some st → step st c = step_after st c.
Proof.
  destruct k as [|[items|members|members key] k]; intros [= <-]; done.
Qed.

Lemma feed_number z b k rest :
  delimited rest →
  feed (MValue b, k) (repr_int z +:+ rest) = complete (JNum z) k ≫= λ st, feed st rest.
Proof.
  intros Hd. rewrite feed_repr_int. destruct rest as [|c rest]; [done|].
  cbn in Hd. rewrite feed_cons. cbn [step]. rewrite Hd.
  unfold finish_number. rewrite number_value_repr.
  destruct (complete (JNum z) k) as [st|] eqn:E; [|done]. cbn [mbind option_bind].
  rewrite feed_cons. by rewrite (step_complete _ _ _ c E).
Qed.

Lemma encode_arr lvl x l :
  encode lvl (JArr (x :: l)) =
  "[" +:+ newline_indent (S lvl)
  +:+ String.concat ("," +:+ newline_indent (S lvl)) (map (encode (S lvl)) (x :: l))
  +:+ newline_indent lvl +:+ "]".
Proof. reflexivity. Qed.

Lemma encode_obj lvl x m :
  encode lvl (JObj (x :: m)) =
  "{" +:+ newline_indent (S lvl)
  +:+ String.concat ("," +:+ newline_indent (S lvl))
        (map (λ kv, encode_basestring kv.1 +:+ ": " +:+ encode (S lvl) kv.2) (x :: m))
  +:+ newline_indent lvl +:+ "}".
Proof. reflexivity. Qed.

Lemma concat_cons {A} sep x (f : A → string) y l :
  String.concat sep (x :: map f (y :: l)) = x +:+ sep +:+ String.concat sep (map f (y :: l)).
Proof. reflexivity. Qed.

Lemma follows_delimited v rest : delimited rest → follows v rest.
Proof. by destruct v. Qed.

Lemma follows_newline_indent v lvl rest : follows v (newline_indent lvl +:+ rest).
Proof. by apply follows_delimited. Qed.

Lemma feed_items li le lc l :
  Forall reads_back l →
  ∀ x acc b k rest, reads_back x →
    feed (MValue b, InArr acc :: k)
      (String.concat ("," +:+ newline_indent li) (map (encode le) (x :: l))
       +:+ newline_indent lc +:+ "]" +:+ rest) =
    complete (JArr (acc ++ x :: l)) k ≫= λ st, feed st rest.
Proof.
  intros Hl. induction Hl as [|y l Hy Hl IH]; intros x acc b k rest Hx.
  - cbn [map String.concat]. rewrite Hx by apply follows_newline_indent.
    cbn [complete mbind option_bind].
    rewrite feed_newline_indent by reflexivity. by rewrite sapp_cons, feed_cons.
  - rewrite map_cons, concat_cons, !sapp_assoc.
    rewrite Hx by (by apply follows_delimited). cbn [complete mbind option_bind].
    read_char (MValue false, InArr (acc ++ [x]) :: k).
    rewrite ?sapp_assoc, feed_newline_indent by reflexivity.
    rewrite IH by done. by rewrite <- (assoc_L (++)).
Qed.

(** A member: the key, the colon and the space, the value. *)
Lemma feed_member le b acc k key v rest :
  reads_back v → follows v rest →
  feed (MKey b, InObj acc :: k)
    (encode_basestring key +:+ ": " +:+ encode le v +:+ rest) =
  feed (MAfter, InObj (acc ++ [(key, v)]) :: k) rest.
Proof.
  intros Hv Hrest. rewrite feed_key.
  read_char (MValue false, InMember acc key :: k).
  read_char (MValue false, InMember acc key :: k).
  by rewrite Hv.
Qed.

Lemma feed_members li le lc m :
  Forall (λ kv, reads_back kv.2) m →
  ∀ x acc b k rest, reads_back x.2 →
    feed (MKey b, InObj acc :: k)
      (String.concat ("," +:+ newline_indent li)
         (map (λ kv, encode_basestring kv.1 +:+ ": " +:+ encode le kv.2) (x :: m))
       +:+ newline_indent lc +:+ "}" +:+ rest) =
    complete (JObj (acc ++ x :: m)) k ≫= λ st, feed st rest.
Proof.
  intros Hm. induction Hm as [|y m Hy Hm IH]; intros [key v] acc b k rest Hx;
    cbn [fst snd] in Hx.
  - cbn [map String.concat fst snd].
    rewrite !sapp_assoc, feed_member by (done || apply follows_newline_indent).
    rewrite feed_newline_indent by reflexivity. by rewrite sapp_cons, feed_cons.
  - rewrite map_cons, concat_cons. cbn [fst snd].
    rewrite !sapp_assoc, feed_member by (done || by apply follows_delimited).
    read_char (MKey false, InObj (acc ++ [(key, v)]) :: k).
    rewrite ?sapp_assoc, feed_newline_indent by reflexivity.
    rewrite IH by done. by rewrite <- (assoc_L (++)).
Qed.

Lemma feed_encode v : reads_back v.
Proof.
  induction v as [|b|z|s|l IH|m IH] using json_ind; intros lvl b0 k rest Hd.
  - reflexivity.
  - destruct b; reflexivity.
  - by apply feed_number.
  - apply feed_basestring.
  - destruct l as [|x l]; [reflexivity|].
    rewrite encode_arr, !sapp_assoc. read_char (MValue true, InArr [] :: k).
    rewrite feed_newline_indent by reflexivity.
    inversion IH; subst. by rewrite feed_items.
  - destruct m as [|x m]; [reflexivity|].
    rewrite encode_obj, !sapp_assoc. read_char (MKey true, InObj [] :: k).
    rewrite feed_newline_indent by reflexivity.
    inversion IH; subst. by rewrite feed_members.
Qed.

(** [json.loads(json.dumps(v, ensure_ascii=False, indent=2)) == v] *)
Theorem loads_dumps v : json_loads (json_dumps v) = Some v.
Proof.
  unfold json_loads, json_dumps.
  assert ((∃ z, v = JNum z) ∨ follows v "") as [[z ->]|Hv]
    by (destruct v; eauto; by right).
  - cbn [encode]. rewrite <- (sapp_nil_r (repr_int z)), feed_repr_int.
    cbn [feed finish option_map]. by rewrite number_value_repr.
  - by rewrite <- (sapp_nil_r (encode 0 v)), feed_encode.
Qed.

(** *** The document on disk *)

Lemma document_shape bs :
  document bs =
  "[" +:+ newline_indent 0
  +:+ String.concat ("," +:+ newline_indent 0) (map (encode 0) (map batch_json bs))
  +:+ newline_indent 0 +:+ "]" +:+ "".
Proof. unfold document. by rewrite map_map. Qed.

Lemma document_loads bs :
  bs ≠ [] → json_loads (document bs) = Some (JArr (map batch_json bs)).
Proof.
  destruct bs as [|rs bs]; [done|intros _].
  unfold json_loads. rewrite document_shape. read_char (MValue true, [InArr []]).
  rewrite feed_newline_indent by reflexivity.
  rewrite map_cons, feed_items.
  - reflexivity.
  - apply Forall_forall. intros v _. apply feed_encode.
  - apply feed_encode.
Qed.

(** *** Where [",\n]"] can occur *)

Lemma scan_app q s t : scan_run q (s +:+ t) = scan_run (scan_run q s) t.
Proof. revert q. induction s as [|c s IH]; intros q; [done|]. rewrite sapp_cons. apply IH. Qed.

Lemma scan_hit s : scan_run Hit s = Hit.
Proof. induction s; [done|]. done. Qed.

Lemma prefix_cons a s b t :
  String.prefix (String a s) (String b t) = if ascii_dec a b then String.prefix s t else false.
Proof. reflexivity. Qed.

Lemma replace_no_hit new q s :
  scan_run q s ≠ Hit → replace_from (String "," CLOSE) new 0 s = s.
Proof.
  revert q. induction s as [|c s IH]; intros q H; [done|].
  cbn [scan_run] in H. cbn [replace_from].
  assert (String.prefix (String "," CLOSE) (String c s) = false) as ->.
  { rewrite prefix_cons. destruct (ascii_dec "," c) as [<-|]; [|done].
    destruct s as [|c1 s]; [done|]. unfold CLOSE. rewrite prefix_cons.
    destruct (ascii_dec LF c1) as [<-|]; [|done].
    destruct s as [|c2 s]; [done|]. rewrite prefix_cons.
    destruct (ascii_dec "]" c2) as [<-|]; [|done].
    exfalso. apply H. destruct q; cbn; apply scan_hit. }
  f_equal. by apply (IH (scan_step q c)).
Qed.

Lemma settles_app s t : settles s → settles t → settles (s +:+ t).
Proof. intros Hs Ht q Hq. rewrite scan_app, Hs by done. by apply Ht. Qed.

Lemma scan_spaces n : scan_run Idle (spaces n) = Idle.
Proof. induction n; [done|]. done. Qed.

Lemma scan_newline_indent lvl : scan_run Idle (newline_indent lvl) = Idle.
Proof. apply scan_spaces. Qed.

(** A separator of the encoder: the indentation after the line feed is
    never empty. *)
Lemma settles_separator lvl : settles ("," +:+ newline_indent (S lvl)).
Proof.
  intros q Hq. unfold newline_indent.
  replace (2 * S lvl)%nat with (S (2 * lvl + 1)) by lia.
  rewrite sapp_cons, sapp_nil_l. cbn [scan_run spaces].
  replace (scan_step (scan_step (scan_step q ",") LF) " ") with Idle by (by destruct q).
  apply scan_spaces.
Qed.

Lemma calm_escape_char q c : calm q = true → calm (scan_run q (escape_char c)) = true.
Proof.
  destruct q; try done; intros _;
    destruct c as [[] [] [] [] [] [] [] []]; reflexivity.
Qed.

Lemma calm_escape q s : calm q = true → calm (scan_run q (escape s)) = true.
Proof.
  revert q. induction s as [|c s IH]; intros q Hq; [done|].
  cbn [escape]. rewrite scan_app. by apply IH, calm_escape_char.
Qed.

Lemma settles_basestring s : settles (encode_basestring s).
Proof.
  intros q Hq. unfold encode_basestring. cbn [scan_run].
  replace (scan_step q DQUOTE) with Idle by (by destruct q).
  rewrite scan_app. pose proof (calm_escape Idle s eq_refl) as H.
  by destruct (scan_run Idle (escape s)).
Qed.

Lemma scan_uint d q :
  q ≠ Hit →
  scan_run q (NilEmpty.string_of_uint d) = match d with Decimal.Nil => q | _ => Idle end.
Proof.
  revert q.
  induction d as [|d IH|d IH|d IH|d IH|d IH|d IH|d IH|d IH|d IH|d IH]; intros q Hq; [done|..];
    cbn [NilEmpty.string_of_uint scan_run];
    (rewrite IH by (by destruct q)); destruct d; by destruct q.
Qed.

Lemma settles_nonnil_uint d : d ≠ Decimal.Nil → settles (NilZero.string_of_uint d).
Proof.
  intros Hd q Hq.
  assert (NilZero.string_of_uint d = NilEmpty.string_of_uint d) as -> by (by destruct d).
  rewrite scan_uint by done. by destruct d.
Qed.

Lemma settles_repr_int z : settles (repr_int z).
Proof.
  intros q Hq. unfold repr_int.
  destruct z as [|p|p]; cbn [Z.to_int NilZero.string_of_int].
  - by destruct q.
  - apply settles_nonnil_uint; [apply Unsigned.to_uint_nonnil|done].
  - cbn [scan_run]. apply settles_nonnil_uint; [apply Unsigned.to_uint_nonnil|by destruct q].
Qed.

Lemma settles_items {A} (f : A → string) li l :
  Forall (λ v, settles (f v)) l →
  ∀ x, settles (f x) →
    settles (String.concat ("," +:+ newline_indent (S li)) (map f (x :: l))).
Proof.
  induction 1 as [|y l Hy Hl IH]; intros x Hx; [done|].
  rewrite map_cons, concat_cons.
  apply settles_app; [done|]. apply settles_app; [apply settles_separator|by apply IH].
Qed.

Lemma scan_closing lvl c :
  Ascii.eqb c "," = false → scan_run Idle (newline_indent lvl +:+ str c) = Idle.
Proof.
  intros Hc. rewrite scan_app, scan_newline_indent. cbn. by rewrite Hc.
Qed.

Lemma settles_encode v lvl : settles (encode lvl v).
Proof.
  revert lvl. induction v as [|b|z|s|l IH|m IH] using json_ind; intros lvl.
  - intros q Hq. by destruct q.
  - intros q Hq. by destruct b, q.
  - apply settles_repr_int.
  - apply settles_basestring.
  - destruct l as [|x l]; [intros q Hq; by destruct q|].
    rewrite encode_arr. intros q Hq. rewrite sapp_cons. cbn [scan_run].
    replace (scan_step q "[") with Idle by (by destruct q).
    rewrite sapp_nil_l, !scan_app, scan_newline_indent.
    inversion IH as [|? ? Hx Hl]; subst.
    rewrite (settles_items (encode (S lvl)) lvl l).
    + by rewrite scan_newline_indent.
    + eapply Forall_impl; [exact Hl|]. by intros v Hv.
    + apply Hx.
    + done.
  - destruct m as [|x m]; [intros q Hq; by destruct q|].
    rewrite encode_obj. intros q Hq. rewrite sapp_cons. cbn [scan_run].
    replace (scan_step q "{") with Idle by (by destruct q).
    rewrite sapp_nil_l, !scan_app, scan_newline_indent.
    inversion IH as [|? ? Hx Hm]; subst.
    assert (∀ kv : string * json, (∀ lvl, settles (encode lvl kv.2)) →
              settles (encode_basestring kv.1 +:+ ": " +:+ encode (S lvl) kv.2)) as Hkv.
    { intros kv H. apply settles_app; [apply settles_basestring|].
      apply settles_app; [|apply H]. intros q' Hq'. by destruct q'. }
    rewrite (settles_items _ lvl m).
    + by rewrite scan_newline_indent.
    + eapply Forall_impl; [exact Hm|]. intros kv H. by apply Hkv.
    + by apply Hkv.
    + done.
Qed.

Lemma scan_batches q x items :
  q ≠ Hit → settles x → Forall settles items →
  scan_run q (String.concat SEP (x :: items)) = Idle.
Proof.
  intros Hq Hx Hl. revert q x Hq Hx.
  induction Hl as [|y l Hy Hl IH]; intros q x Hq Hx; [by apply Hx|].
  change (String.concat SEP (x :: y :: l)) with (x +:+ SEP +:+ String.concat SEP (y :: l)).
  rewrite !scan_app, Hx by done. by apply IH.
Qed.

Lemma scan_document bs : scan_run Idle (document bs) = Idle.
Proof.
  unfold document. rewrite !scan_app. change (scan_run Idle OPEN) with Idle.
  destruct bs as [|rs bs]; [done|].
  rewrite map_cons, scan_batches; [done..| |].
  - apply settles_encode.
  - induction bs as [|b bs IH]; cbn [map]; constructor; [apply settles_encode|done].
Qed.

(** The clean-up of [main] finds nothing to replace in a document. *)
Lemma replace_document bs :
  str_replace (String "," CLOSE) CLOSE (document bs) = document bs.
Proof.
  unfold str_replace. apply (replace_no_hit _ Idle). by rewrite scan_document.
Qed.

(** *** [save_results] on the documents it wrote *)

Lemma document_singleton rs : document [rs] = OPEN +:+ json_dumps (batch_json rs) +:+ CLOSE.
Proof. reflexivity. Qed.

Lemma concat_snoc sep l x :
  l ≠ [] → String.concat sep (l ++ [x]) = String.concat sep l +:+ sep +:+ x.
Proof.
  induction l as [|y l IH]; [done|intros _].
  destruct l as [|z l]; [done|].
  change (String.concat sep ((y :: z :: l) ++ [x]))
    with (y +:+ sep +:+ String.concat sep ((z :: l) ++ [x])).
  rewrite IH by done.
  change (String.concat sep (y :: z :: l)) with (y +:+ sep +:+ String.concat sep (z :: l)).
  by rewrite !sapp_assoc.
Qed.

Lemma document_snoc bs rs :
  bs ≠ [] →
  truncate (String.length (document bs) - 2) (document bs)
    +:+ SEP +:+ json_dumps (batch_json rs) +:+ CLOSE
  = document (bs ++ [rs]).
Proof.
  intros Hbs. unfold document.
  rewrite map_app. cbn [map]. rewrite concat_snoc by (by destruct bs).
  rewrite <- (sapp_assoc OPEN), !length_sapp.
  replace (_ + String.length CLOSE - 2)%nat
    with (String.length (OPEN +:+ String.concat SEP
            (map (λ rs0, json_dumps (batch_json rs0)) bs)))
    by (rewrite length_sapp; cbn; lia).
  rewrite truncate_app. by rewrite !sapp_assoc.
Qed.

Lemma document_length bs : (4 ≤ String.length (document bs))%nat.
Proof. unfold document. rewrite !length_sapp. cbn. lia. Qed.

Lemma save_results_spec incremental now self fs bs :
  stored now self fs bs → results self ≠ [] →
  save_results incremental now self fs =
  (Ok tt, set_results (set_filename self (file_name now self)) [],
   <[file_name now self :=
       document ((if incremental then bs else []) ++ [results self])]> fs).
Proof.
  unfold stored, file_name, save_results. intros Hst Hrs.
  destruct (results self) as [|r rs] eqn:Er; [done|]. cbv zeta.
  destruct (filename self) as [fn|] eqn:Efn; cbn [default from_option id].
  - destruct Hst as [Hbs Hfs]. destruct incremental; cbn [andb].
    + rewrite Hfs. rewrite !bool_decide_eq_true_2 by done.
      rewrite Hfs. cbn [negb orb default from_option id].
      pose proof (document_length bs).
      destruct (String.length (document bs) =? 0)%nat eqn:E0;
        [apply Nat.eqb_eq in E0; lia|].
      destruct (String.length (document bs) <? 2)%nat eqn:E2;
        [apply Nat.ltb_lt in E2; lia|].
      cbn [set_filename set_results results]. rewrite Er.
      by rewrite document_snoc.
    + cbn [negb orb]. rewrite lookup_insert_eq. cbn [default from_option id set_filename results].
      rewrite Er, insert_insert_eq. reflexivity.
  - destruct Hst as [-> Hfs]. rewrite Hfs.
    rewrite bool_decide_eq_false_2 by (by intros [? ?]).
    rewrite andb_false_r. cbn [negb orb]. rewrite lookup_insert_eq.
    cbn [default from_option id set_filename results]. rewrite Er, insert_insert_eq.
    by destruct incremental.
Qed.

(** *** Items and pages *)

Lemma set_results_id self : set_results self (results self) = self.
Proof. by destruct self. Qed.

Lemma set_results_twice self rs rs' :
  set_results (set_results self rs) rs' = set_results self rs'.
Proof. done. Qed.

Lemma extract_good keywords item page_num r :
  extract keywords item page_num = Ok (Some r) →
  url r ≠ "" ∧ page r = page_num ∧ matches keywords (title r) (summary r) = true.
Proof.
  unfold extract, bind.
  destruct (query_a item) as [[title_elem|]|]; [|done..].
  destruct (text_content title_elem) as [t|]; [|done].
  destruct (query_p item) as [[summary_elem|]|]; [| |done].
  - destruct (text_content summary_elem) as [s|]; [|done].
    destruct (get_href title_elem) as [[[|c link]|]|]; [done| |done..].
    destruct (matches _ _ _) eqn:E; [|done]. by intros [= <-].
  - destruct (get_href title_elem) as [[[|c link]|]|]; [done| |done..].
    destruct (matches _ _ _) eqn:E; [|done]. by intros [= <-].
Qed.

Lemma kept_good keywords page_num item :
  Forall (λ r, url r ≠ "" ∧ page r = page_num
               ∧ matches keywords (title r) (summary r) = true)
    (kept keywords page_num item).
Proof.
  unfold kept. destruct (extract keywords item page_num) as [[r|]|] eqn:E;
    [|constructor..].
  constructor; [by apply extract_good in E|constructor].
Qed.

Lemma process_news_item_spec self item page_num :
  process_news_item self item page_num =
  set_results self (results self ++ kept (keywords self) page_num item).
Proof.
  unfold process_news_item, kept.
  destruct (extract (keywords self) item page_num) as [[r|]|];
    [done|by rewrite app_nil_r, set_results_id ..].
Qed.

Lemma process_all self items page_num :
  fold_left (λ self item, process_news_item self item page_num) items self =
  set_results self (results self ++ (items ≫= kept (keywords self) page_num)).
Proof.
  revert self. induction items as [|item items IH]; intros self.
  - cbn. by rewrite app_nil_r, set_results_id.
  - cbn [fold_left]. rewrite IH, process_news_item_spec.
    cbn [set_results results keywords]. rewrite bind_cons. by rewrite (assoc_L (++)).
Qed.

(** [scrape_page]: it fails before any item is looked at, or every item's
    coroutine has run. *)
Lemma scrape_page_spec self pv page_num :
  scrape_page self pv page_num =
  match wait_news_list pv, query_items pv with
  | Ok _, Ok news_items =>
      (true, set_results self
               (results self ++ (completion pv news_items ≫= kept (keywords self) page_num)))
  | _, _ => (false, self)
  end.
Proof.
  unfold scrape_page. destruct (wait_news_list pv); [|done].
  destruct (query_items pv); [|done]. by rewrite process_all.
Qed.

Lemma bind_kept_good keywords page_num items :
  Forall (λ r, url r ≠ "" ∧ page r = page_num
               ∧ matches keywords (title r) (summary r) = true)
    (items ≫= kept keywords page_num).
Proof.
  induction items as [|item items IH]; [constructor|].
  rewrite bind_cons. apply Forall_app. split; [apply kept_good|done].
Qed.

(** *** The crawl loop *)

Lemma stored_config now self self' fs bs :
  filename self' = filename self → output_dir self' = output_dir self →
  stored now self fs bs → stored now self' fs bs.
Proof. unfold stored, default_name. by intros -> ->. Qed.

Lemma persist_nil now self fs : results self = [] → persist now self fs = (Ok tt, self, fs).
Proof. unfold persist. by intros ->. Qed.

Lemma persist_spec now self fs bs :
  stored now self fs bs → results self ≠ [] →
  persist now self fs =
  (Ok tt, set_results (set_filename self (file_name now self)) [],
   <[file_name now self := document (bs ++ [results self])]> fs).
Proof.
  intros Hst Hrs. unfold persist. rewrite (save_results_spec true now self fs bs) by done.
  by destruct (results self).
Qed.

Lemma stored_after_persist now self fs bs :
  stored now (set_results (set_filename self (file_name now self)) [])
    (<[file_name now self := document (bs ++ [results self])]> fs) (bs ++ [results self]).
Proof.
  unfold stored. cbn [filename set_results set_filename].
  split; [by destruct bs|apply lookup_insert_eq].
Qed.

Lemma crawl_spec fuel : ∀ b self fs tr cur bs,
  stored (now b) self fs bs → results self = [] → 1 ≤ cur →
  (Z.to_nat (max_pages self + 1 - cur) ≤ fuel)%nat →
  ∃ o bs',
    crawl fuel b self fs tr cur = Some o ∧ status o = Ok tt ∧
    results (crawler o) = [] ∧
    keywords (crawler o) = keywords self ∧
    max_pages (crawler o) = max_pages self ∧
    output_dir (crawler o) = output_dir self ∧
    stored (now b) (crawler o) (files o) (bs ++ bs') ∧
    files o = (if bs' is [] then fs
               else <[file_name (now b) self := document (bs ++ bs')]> fs) ∧
    Forall (λ rs, rs ≠ [] ∧ Forall (good (keywords self) cur (max_pages self)) rs) bs'.
Proof.
  induction fuel as [|fuel IH]; intros b self fs tr cur bs Hst Hrs Hcur Hfuel.
  - exists {| status := Ok tt; crawler := self; files := fs; trace := tr |}, [].
    cbn [crawl]. destruct (cur <=? max_pages self) eqn:E; [apply Z.leb_le in E; lia|].
    rewrite app_nil_r. by split_and!.
  - cbn [crawl]. destruct (cur <=? max_pages self) eqn:E; cbn [negb];
      [apply Z.leb_le in E|];
      [|exists {| status := Ok tt; crawler := self; files := fs; trace := tr |}, [];
        rewrite app_nil_r; by split_and!].
    rewrite scrape_page_spec.
    destruct (wait_news_list (view b cur)) as [[]|e];
      [|eexists _, []; rewrite app_nil_r; by split_and!].
    destruct (query_items (view b cur)) as [news_items|e];
      [|eexists _, []; rewrite app_nil_r; by split_and!].
    cbn [negb]. rewrite Hrs, app_nil_l.
    pose proof (bind_kept_good (keywords self) cur
                  (completion (view b cur) news_items)) as Hgood.
    destruct (completion (view b cur) news_items ≫= kept (keywords self) cur)
      as [|r new] eqn:Enew.
    + (* nothing matched on this page *)
      rewrite persist_nil by done.
      cbn [max_pages set_results].
      destruct (cur <? max_pages self) eqn:Elt;
        [|eexists _, []; rewrite app_nil_r; split_and!; try done;
          by apply (stored_config _ self)].
      destruct (turn_page (view b cur));
        [|eexists _, []; rewrite app_nil_r; split_and!; try done;
          by apply (stored_config _ self)].
      apply Z.ltb_lt in Elt.
      destruct (IH b (set_results self []) fs
                  (tr ++ [Scraped cur true]) (cur + 1) bs)
        as (o & bs' & Ho & ? & ? & ? & ? & ? & ? & ? & Hall);
        [by apply (stored_config _ self)|done|lia|cbn [max_pages set_results]; lia|].
      exists o, bs'. split_and!; try done.
      eapply Forall_impl; [exact Hall|]. cbn [keywords max_pages set_results].
      intros rs [? Hrs']. split; [done|].
      eapply Forall_impl; [exact Hrs'|]. intros r (? & ? & ?). unfold good. split_and!; try done; lia.
    + (* a batch to write *)
      set (self1 := set_results self (r :: new)).
      assert (stored (now b) self1 fs bs) as Hst1 by by apply (stored_config _ self).
      rewrite (persist_spec _ self1 fs bs) by done.
      assert (file_name (now b) self1 = file_name (now b) self) as Efn by done.
      rewrite Efn. cbn [results self1 set_results max_pages set_filename].
      set (fn := file_name (now b) self).
      set (self2 := set_results (set_filename self1 fn) []).
      set (fs2 := <[fn := document (bs ++ [r :: new])]> fs).
      assert (stored (now b) self2 fs2 (bs ++ [r :: new])) as Hst2.
      { split; [by destruct bs|apply lookup_insert_eq]. }
      assert (Forall (good (keywords self) cur (max_pages self)) (r :: new)) as Hbatch.
      { eapply Forall_impl; [exact Hgood|]. intros r' (? & Hp & ?). unfold good.
        rewrite Hp. split_and!; try done; lia. }
      assert (∃ o bs',
        (if cur <? max_pages self
         then if turn_page (view b cur)
              then crawl fuel b self2 fs2 (tr ++ [Scraped cur true]) (cur + 1)
              else Some {| status := Ok tt; crawler := self2; files := fs2;
                           trace := tr ++ [Scraped cur true] |}
         else Some {| status := Ok tt; crawler := self2; files := fs2;
                      trace := tr ++ [Scraped cur true] |}) = Some o ∧
        status o = Ok tt ∧ results (crawler o) = [] ∧
        keywords (crawler o) = keywords self ∧
        max_pages (crawler o) = max_pages self ∧
        output_dir (crawler o) = output_dir self ∧
        stored (now b) (crawler o) (files o) ((bs ++ [r :: new]) ++ bs') ∧
        files o = (if bs' is [] then fs2
                   else <[fn := document ((bs ++ [r :: new]) ++ bs')]> fs2) ∧
        Forall (λ rs, rs ≠ [] ∧ Forall (good (keywords self) cur (max_pages self)) rs) bs')
        as (o & bs' & Ho & ? & ? & ? & ? & ? & Hsto & Hfiles & Hall).
      { destruct (cur <? max_pages self) eqn:Elt;
          [|eexists _, []; rewrite app_nil_r; by split_and!].
        destruct (turn_page (view b cur));
          [|eexists _, []; rewrite app_nil_r; by split_and!].
        apply Z.ltb_lt in Elt.
        destruct (IH b self2 fs2 (tr ++ [Scraped cur true]) (cur + 1) (bs ++ [r :: new]))
          as (o & bs' & Ho & ? & ? & ? & ? & ? & ? & ? & Hall);
          [done|done|lia|cbn [max_pages set_results set_filename self2 self1]; lia|].
        exists o, bs'. split_and!; try done.
        change (max_pages self2) with (max_pages self) in Hall.
        change (keywords self2) with (keywords self) in Hall.
        eapply Forall_impl; [exact Hall|]. intros rs [? Hrs']. split; [done|].
        eapply Forall_impl; [exact Hrs'|]. intros r' (? & ? & ?). unfold good.
        split_and!; try done; lia. }
      exists o, ((r :: new) :: bs'). rewrite Ho.
      rewrite <- (assoc_L (++)) in Hsto, Hfiles. cbn [app] in Hsto, Hfiles.
      split_and!; try done.
      * rewrite Hfiles. destruct bs'; [done|]. unfold fs2. by rewrite insert_insert_eq.
      * constructor; [done|exact Hall].
Qed.

(** *** [run] and [main] *)

Lemma finalize_stored now self fs bs :
  stored now self fs bs → finalize self fs = (Ok tt, fs).
Proof.
  unfold stored, finalize. destruct (filename self) as [fn|]; [|done].
  intros [_ Hfs]. rewrite Hfs, replace_document. by rewrite insert_id.
Qed.

Lemma run_spec b self fs :
  filename self = None → results self = [] →
  fs !! default_name self (now b) = None →
  match start_page b with
  | Raise e =>
      run b self fs = Some {| status := Raise e; crawler := self; files := fs; trace := [] |}
  | Ok _ =>
      ∃ o bs,
        run b self fs = Some o ∧ status o = Ok tt ∧
        stored (now b) (crawler o) (files o) bs ∧
        files o = (if bs is [] then fs
                   else <[default_name self (now b) := document bs]> fs) ∧
        Forall (λ rs, rs ≠ [] ∧ Forall (good (keywords self) 1 (max_pages self)) rs) bs
  end.
Proof.
  intros Hfn Hrs Hfs. unfold run. destruct (start_page b) as [[]|e]; [|done].
  destruct (crawl_spec (Z.to_nat (max_pages self)) b self fs [] 1 [])
    as (o & bs & Ho & ? & _ & _ & _ & _ & Hst & Hfiles & Hall);
    [by unfold stored; rewrite Hfn|done|lia|lia|].
  exists o, bs. split_and!; try done.
  rewrite Hfiles. unfold file_name. by rewrite Hfn.
Qed.

Lemma main_spec b fs keywords max_pages :
  fs !! default_name (init keywords max_pages "output") (now b) = None →
  match start_page b with
  | Raise e => main b fs keywords max_pages = Some (1, fs, [])
  | Ok _ =>
      ∃ bs tr,
        main b fs keywords max_pages =
          Some (0, (if bs is [] then fs
                    else <[default_name (init keywords max_pages "output") (now b)
                             := document bs]> fs), tr) ∧
        Forall (λ rs, rs ≠ [] ∧ Forall (good keywords 1 max_pages) rs) bs
  end.
Proof.
  intros Hfs. unfold main.
  pose proof (run_spec b (init keywords max_pages "output") fs eq_refl eq_refl Hfs) as H.
  destruct (start_page b) as [[]|e].
  - destruct H as (o & bs & -> & -> & Hst & Hfiles & Hall).
    rewrite (finalize_stored _ _ _ _ Hst), Hfiles. by exists bs, (trace o).
  - by rewrite H.
Qed.


Lemma save_results_config incremental now self fs :
  let self' := (save_results incremental now self fs).1.2 in
  keywords self' = keywords self ∧ max_pages self' = max_pages self
  ∧ output_dir self' = output_dir self.
Proof.
  unfold save_results. destruct (results self); [done|]. cbv zeta.
  repeat match goal with |- context [if ?c then _ else _] => destruct c end; done.
Qed.

Lemma persist_config now self fs :
  max_pages (persist now self fs).1.2 = max_pages self.
Proof.
  unfold persist. destruct (results self); [done|]. apply save_results_config.
Qed.

Lemma scrape_page_config self pv page_num :
  max_pages (scrape_page self pv page_num).2 = max_pages self.
Proof.
  rewrite scrape_page_spec.
  by destruct (wait_news_list pv) as [[]|], (query_items pv).
Qed.

(** The loop only ever adds to the trace, and while the page limit is not
    passed it scrapes the current page first. *)
Lemma crawl_trace fuel : ∀ b self fs tr cur o,
  crawl fuel b self fs tr cur = Some o →
  if cur <=? max_pages self
  then ∃ ok tr', trace o = tr ++ Scraped cur ok :: tr'
  else trace o = tr.
Proof.
  induction fuel as [|fuel IH]; intros b self fs tr cur o; cbn [crawl];
    destruct (cur <=? max_pages self) eqn:E; cbn [negb]; try done;
    try (by intros [= <-]).
  destruct (scrape_page self (view b cur) cur) as [success self1] eqn:Es.
  destruct success; cbn [negb]; [|intros [= <-]; by exists false, []].
  destruct (persist (now b) self1 fs) as [[saved self2] fs2] eqn:Ep.
  destruct saved as [[]|e]; [|intros [= <-]; by exists true, []].
  destruct (cur <? max_pages self2); [|intros [= <-]; by exists true, []].
  destruct (turn_page (view b cur)); [|intros [= <-]; by exists true, []].
  intros Ho. apply IH in Ho. exists true.
  destruct (cur + 1 <=? max_pages self2).
  - destruct Ho as (ok & tr' & ->). exists (Scraped (cur + 1) ok :: tr').
    by rewrite <- (assoc_L (++)).
  - exists []. by rewrite Ho.
Qed.

(** The loop ends: as many iterations as there are pages up to the limit
    are enough, whatever the browser and the files do. *)
Lemma crawl_total fuel : ∀ b self fs tr cur,
  (Z.to_nat (max_pages self + 1 - cur) ≤ fuel)%nat →
  is_Some (crawl fuel b self fs tr cur).
Proof.
  induction fuel as [|fuel IH]; intros b self fs tr cur Hfuel; cbn [crawl];
    destruct (cur <=? max_pages self) eqn:E; cbn [negb]; try done;
    apply Z.leb_le in E; [lia|].
  pose proof (scrape_page_config self (view b cur) cur) as H1.
  destruct (scrape_page self (view b cur) cur) as [success self1].
  destruct success; cbn [negb]; [|done].
  pose proof (persist_config (now b) self1 fs) as H2.
  destruct (persist (now b) self1 fs) as [[saved self2] fs2].
  destruct saved as [[]|e]; [|done]. cbn in H1, H2.
  destruct (cur <? max_pages self2); [|done].
  destruct (turn_page (view b cur)); [|done].
  apply IH. lia.
Qed.

Theorem run_total b self fs : is_Some (run b self fs).
Proof.
  unfold run. destruct (start_page b); [|done]. apply crawl_total. lia.
Qed.


Lemma turn_page_true pv :
  turn_page pv = true ↔
  ∃ next_btn, query_next pv = Ok (Some next_btn) ∧ click next_btn = Ok tt
              ∧ load_after_click next_btn = Ok tt.
Proof.
  unfold turn_page. split.
  - destruct (query_next pv) as [[btn|]|]; [|done..].
    destruct (click btn) as [[]|] eqn:Ec; [|done].
    destruct (load_after_click btn) as [[]|] eqn:El; [|done]. by exists btn.
  - by intros (btn & -> & -> & ->).
Qed.

Lemma str_in_no_hit q s : scan_run q s ≠ Hit → str_in (String "," CLOSE) s = false.
Proof.
  revert q. induction s as [|c s IH]; intros q H; [done|].
  cbn [scan_run] in H. cbn [str_in].
  rewrite (IH (scan_step q c)) by done. rewrite orb_false_r.
  rewrite prefix_cons. destruct (ascii_dec "," c) as [<-|]; [|done].
  destruct s as [|c1 s]; [done|]. unfold CLOSE. rewrite prefix_cons.
  destruct (ascii_dec LF c1) as [<-|]; [|done].
  destruct s as [|c2 s]; [done|]. rewrite prefix_cons.
  destruct (ascii_dec "]" c2) as [<-|]; [|done].
  exfalso. apply H. destruct q; cbn; apply scan_hit.
Qed.

Lemma append_batches_spec now bs : ∀ self fs bs0,
  stored now self fs bs0 → Forall (λ rs, rs ≠ []) bs →
  ∃ self', append_batches now bs self fs =
             (Ok tt, self', if bs is [] then fs
                            else <[file_name now self := document (bs0 ++ bs)]> fs)
           ∧ stored now self' (if bs is [] then fs
                               else <[file_name now self := document (bs0 ++ bs)]> fs)
               (bs0 ++ bs)
           ∧ file_name now self' = file_name now self.
Proof.
  induction bs as [|rs bs IH]; intros self fs bs0 Hst Hall.
  - exists self. by rewrite app_nil_r.
  - inversion Hall as [|? ? Hrs Hbs]; subst. cbn [append_batches].
    rewrite (save_results_spec true now (set_results self rs) fs bs0) by done.
    cbn [results set_results].
    change (file_name now (set_results self rs)) with (file_name now self).
    set (self1 := set_results (set_filename (set_results self rs) (file_name now self)) []).
    set (fs1 := <[file_name now self := document (bs0 ++ [rs])]> fs).
    destruct (IH self1 fs1 (bs0 ++ [rs])) as (self' & -> & Hst' & Hfn); [|done|].
    { split; [by destruct bs0|apply lookup_insert_eq]. }
    change (file_name now self1) with (file_name now self) in *.
    rewrite <- (assoc_L (++)) in *. cbn [app] in *.
    exists self'. destruct bs as [|rs' bs]; [done|].
    unfold fs1 in *. by rewrite insert_insert_eq in *.
Qed.

(** * The claims *)

(** ** Keyword filter *)

Lemma any_keyword_spec keywords t s :
  any_keyword keywords t s = true ↔
  ∃ k, k ∈ keywords ∧ ((∃ pre post, t = pre +:+ k +:+ post)
                        ∨ (∃ pre post, s = pre +:+ k +:+ post)).
Proof.
  unfold any_keyword. rewrite existsb_exists. split.
  - intros (k & Hk & H). exists k. split; [by apply list_elem_of_In|].
    apply orb_true_iff in H as [H|H]; [left|right]; by apply str_in_spec.
  - intros (k & Hk & H). exists k. split; [by apply list_elem_of_In|].
    apply orb_true_iff. destruct H as [H|H]; [left|right]; by apply str_in_spec.
Qed.

(** C2: an item matches exactly when the keyword list is empty or some
    keyword is a literal (byte for byte, so case-sensitive) substring of its
    title or of its summary; and a record is appended to the results only for
    an item that matches. *)
Theorem C2_keyword_filter keywords :
  (∀ t s, matches keywords t s = true ↔
          keywords = [] ∨
          ∃ k, k ∈ keywords ∧ ((∃ pre post, t = pre +:+ k +:+ post)
                                ∨ (∃ pre post, s = pre +:+ k +:+ post)))
  ∧ (∀ item page_num r,
       r ∈ kept keywords page_num item →
       matches keywords (title r) (summary r) = true).
Proof.
  split.
  - intros t s. unfold matches. rewrite <- any_keyword_spec.
    destruct keywords as [|k ks]; [by split; [left|]|].
    rewrite bool_decide_eq_false_2 by done. cbn [negb andb].
    rewrite negb_involutive. split; [by right|by intros [?|?]].
  - intros item page_num r Hr.
    pose proof (kept_good keywords page_num item) as H.
    rewrite Forall_forall in H. by apply H in Hr as (_ & _ & ?).
Qed.

Lemma C2_keyword_filter_witness :
  matches ["market"] "stock market up" "" = true
  ∧ matches ["Market"] "stock market up" "" = false.
Proof.
  split.
  - apply (proj1 (C2_keyword_filter ["market"])). right. exists "market".
    split; [apply list_elem_of_here|]. left. by exists "stock ", " up".
  - reflexivity.
Defined.

(** ** Persisted records *)

(** C3, as the code has it: every record of the document [main] leaves has a
    non-empty url, a page number between 1 and [max_pages], and passed the
    keyword filter. Nothing is promised about the title. *)
Theorem C3_persisted_records b fs keywords max_pages :
  fs !! default_name (init keywords max_pages "output") (now b) = None →
  ∃ code tr bs,
    main b fs keywords max_pages =
      Some (code, (if bs is [] then fs
                   else <[default_name (init keywords max_pages "output") (now b)
                            := document bs]> fs), tr) ∧
    Forall (Forall (λ r, url r ≠ "" ∧ 1 ≤ page r ≤ max_pages
                         ∧ matches keywords (title r) (summary r) = true)) bs.
Proof.
  intros Hfs. pose proof (main_spec b fs keywords max_pages Hfs) as H.
  destruct (start_page b) as [[]|e].
  - destruct H as (bs & tr & -> & Hall). exists 0, tr, bs. split; [done|].
    eapply Forall_impl; [exact Hall|]. by intros rs [_ ?].
  - exists 1, [], []. by rewrite H.
Qed.

Lemma C3_persisted_records_witness :
  (∅ : gmap string string) !! default_name (init ["market"] 5 "output") (now market_site) = None
  ∧ ∃ code tr bs,
      main market_site ∅ ["market"] 5 =
        Some (code, (if bs is [] then ∅
                     else <[default_name (init ["market"] 5 "output") (now market_site)
                              := document bs]> ∅), tr) ∧
      Forall (Forall (λ r, url r ≠ "" ∧ 1 ≤ page r ≤ 5
                           ∧ matches ["market"] (title r) (summary r) = true)) bs.
Proof.
  split; [reflexivity|]. apply (C3_persisted_records market_site ∅ ["market"] 5).
  reflexivity.
Defined.

(** C3 as stated fails on the title: an item whose link text is empty and
    whose summary holds the keyword is written to the document with an empty
    title. *)
Lemma C3_empty_title_is_persisted :
  let site := sample_site (λ _, last_page [sample_item "" "market" "http://c"]) in
  let r := {| title := ""; summary := "market"; url := "http://c"; page := 1 |} in
  main site ∅ ["market"] 1 =
    Some (0, {[ "output/sina_news_20240101_120000.json" := document [[r]] ]},
          [Scraped 1 true])
  ∧ json_loads (document [[r]]) =
      Some (JArr [JArr [JObj [("title", JStr ""); ("summary", JStr "market");
                              ("url", JStr "http://c"); ("page", JNum 1)]]])
  ∧ ¬ (title r ≠ "").
Proof. split_and!; [by vm_compute|by vm_compute|by intros H]. Qed.

(** ** The result store *)





(** C5: [save_results] on a crawler with no results returns at once: the
    crawler (its file name included) and every file are as before, so no file
    is created. *)
Theorem C5_empty_batch_is_noop incremental now self fs :
  save_results incremental now (set_results self []) fs = (Ok tt, set_results self [], fs)
  ∧ persist now (set_results self []) fs = (Ok tt, set_results self [], fs).
Proof. split; reflexivity. Qed.

(** C1, on the code: one batch of one record, appended and finalized from an
    empty directory. The document is read as an array holding one array with
    the record, not as the flat array of the record. *)
Theorem C1_single_batch_stays_nested :
  let r := {| title := "t"; summary := "s"; url := "http://x"; page := 1 |} in
  ∃ self' fs' content,
    append_batches "20240101_120000" [[r]] (init [] 5 "output") ∅ = (Ok tt, self', fs') ∧
    finalize self' fs' = (Ok tt, fs') ∧
    fs' !! "output/sina_news_20240101_120000.json" = Some content ∧
    json_loads content = Some (JArr [JArr [record_json r]]) ∧
    json_loads content ≠ Some (JArr [record_json r]).
Proof.
  intros r.
  destruct (append_batches_spec "20240101_120000" [[r]] (init [] 5 "output") ∅ [])
    as (self' & Happ & Hst & _); [by split|by repeat constructor|].
  cbn [app] in Happ, Hst. eexists self', _, (document [[r]]).
  split; [exact Happ|]. split; [by apply (finalize_stored _ _ _ _ Hst)|].
  split; [reflexivity|]. rewrite document_loads by done. by split.
Qed.

(** C10: batches that are not empty, appended one after the other from a
    state without the output file: the text [",\n]"] occurs nowhere in the
    document, the clean-up of [main] leaves every file as it is, and the
    document is read as the array of the batches, one array per batch, which
    is not the flat array of the records. *)
Theorem C10_cleanup_changes_nothing now self fs bs :
  filename self = None → fs !! default_name self now = None →
  bs ≠ [] → Forall (λ rs, rs ≠ []) bs →
  ∃ self' fs',
    append_batches now bs self fs = (Ok tt, self', fs') ∧
    filename self' = Some (default_name self now) ∧
    fs' !! default_name self now = Some (document bs) ∧
    str_in (String "," CLOSE) (document bs) = false ∧
    str_replace (String "," CLOSE) CLOSE (document bs) = document bs ∧
    finalize self' fs' = (Ok tt, fs') ∧
    json_loads (document bs) = Some (JArr (map batch_json bs)) ∧
    json_loads (document bs) ≠ Some (JArr (map record_json (concat bs))).
Proof.
  intros Hfn Hfs Hbs Hall.
  destruct (append_batches_spec now bs self fs []) as (self' & Happ & Hst & Hname);
    [by unfold stored; rewrite Hfn|done|].
  destruct bs as [|rs bs]; [done|]. cbn [app] in *.
  unfold file_name in Happ, Hst, Hname. rewrite Hfn in Happ, Hst, Hname.
  cbn [default from_option id] in *.
  eexists self', _. split; [exact Happ|].
  pose proof Hst as Hst'. unfold stored in Hst'.
  destruct (filename self') as [fn|] eqn:E; [|by destruct Hst'].
  unfold file_name in Hname. cbn [default from_option id] in Hname. subst fn.
  split_and!.
  - done.
  - apply lookup_insert_eq.
  - apply (str_in_no_hit Idle). by rewrite scan_document.
  - apply replace_document.
  - by apply (finalize_stored _ _ _ _ Hst).
  - by apply document_loads.
  - rewrite document_loads by done. inversion Hall as [|? ? Hrs _]; subst.
    destruct rs as [|r rs]; [done|]. intros [= H].
Qed.

Lemma C10_cleanup_changes_nothing_witness :
  let r1 := {| title := "a,"; summary := "]"; url := "http://x"; page := 1 |} in
  let r2 := {| title := "b"; summary := String "," (String LF "]"); url := "http://y"; page := 2 |} in
  let bs := [[r1]; [r2; r1]] in
  filename (init [] 5 "output") = None
  ∧ (∅ : gmap string string) !! default_name (init [] 5 "output") "20240101_120000" = None
  ∧ bs ≠ [] ∧ Forall (λ rs, rs ≠ []) bs
  ∧ ∃ self' fs',
      append_batches "20240101_120000" bs (init [] 5 "output") ∅ = (Ok tt, self', fs') ∧
      finalize self' fs' = (Ok tt, fs') ∧
      json_loads (document bs) = Some (JArr (map batch_json bs)).
Proof.
  intros r1 r2 bs.
  assert (bs ≠ []) as Hbs by done.
  assert (Forall (λ rs, rs ≠ []) bs) as Hall by (by repeat constructor).
  assert ((∅ : gmap string string)
            !! default_name (init [] 5 "output") "20240101_120000" = None) as Hfs
    by reflexivity.
  split_and!; [reflexivity|done|done|done|].
  destruct (C10_cleanup_changes_nothing "20240101_120000" (init [] 5 "output") ∅ bs
              eq_refl Hfs Hbs Hall)
    as (self' & fs' & ? & _ & _ & _ & _ & ? & ? & _).
  by exists self', fs'.
Defined.

(** ** The crawl loop *)

(** C6: once the start page has loaded, a page limit of 0 or a time-out of
    the first wait for the news list ends the run with exit status 0, every
    file as it was (no document is created) and no page processed. *)
Theorem C6_nothing_to_crawl b fs kws limit :
  start_page b = Ok tt →
  limit = 0 ∨ wait_news_list (view b 1) = Raise PlaywrightTimeoutError →
  ∃ tr, main b fs kws limit = Some (0, fs, tr) ∧ processed tr = [].
Proof.
  intros Hstart Hstop. unfold main, run. rewrite Hstart.
  destruct Hstop as [->|Hwait].
  - by exists [].
  - cbn [max_pages init].
    destruct (Z.to_nat limit) as [|fuel] eqn:Efuel; cbn [crawl max_pages init].
    + destruct (1 <=? limit) eqn:E; [apply Z.leb_le in E; lia|]. by exists [].
    + destruct (1 <=? limit) eqn:E; cbn [negb]; [|by exists []].
      rewrite scrape_page_spec, Hwait. by exists [Scraped 1 false].
Qed.

Lemma C6_nothing_to_crawl_witness :
  start_page (sample_site (λ _, stalled_page)) = Ok tt
  ∧ (3 = 0 ∨ wait_news_list (view (sample_site (λ _, stalled_page)) 1)
             = Raise PlaywrightTimeoutError)
  ∧ ∃ tr, main (sample_site (λ _, stalled_page)) ∅ ["market"] 3 = Some (0, ∅, tr)
          ∧ processed tr = [].
Proof.
  split; [reflexivity|]. split; [right; reflexivity|].
  apply (C6_nothing_to_crawl (sample_site (λ _, stalled_page)) ∅ ["market"] 3);
    [reflexivity|right; reflexivity].
Defined.

Lemma stops_after_spec limit cur pv :
  stops_after limit cur pv ↔ (cur <? limit) && turn_page pv = false.
Proof.
  unfold stops_after. split.
  - intros Hstop. destruct (cur <? limit) eqn:Elt; [|done]. apply Z.ltb_lt in Elt.
    destruct (turn_page pv) eqn:Eturn; [|done].
    apply turn_page_true in Eturn as (btn & Hq & Hc & Hl).
    destruct Hstop as [?|[Hn|[[e He]|(btn' & e & Hq' & Hr)]]];
      [lia|congruence|congruence|].
    rewrite Hq in Hq'. injection Hq' as <-. destruct Hr; congruence.
  - destruct (cur <? limit) eqn:Elt; [|apply Z.ltb_ge in Elt; by left].
    unfold turn_page. cbn [andb]. intros H. right.
    destruct (query_next pv) as [[btn|]|e]; [|by left|right; left; by exists e].
    right. right. exists btn.
    destruct (click btn) as [[]|e]; [|exists e; by split; [|left]].
    destruct (load_after_click btn) as [[]|e]; [done|]. exists e. by split; [|right].
Qed.

(** C7: after a page has been scraped and its batch written, the loop stops
    when the page limit is reached, when there is no next-page link, or when
    looking for it, clicking it or waiting for the load raises: the run ends
    normally with the files as the last write left them and no further page
    scraped. Otherwise the loop goes on with the page number incremented,
    and that page is the next one scraped. *)
Theorem C7_pagination fuel b self fs tr cur self1 self2 fs2 :
  cur ≤ max_pages self →
  (Z.to_nat (max_pages self - cur) ≤ fuel)%nat →
  scrape_page self (view b cur) cur = (true, self1) →
  persist (now b) self1 fs = (Ok tt, self2, fs2) →
  (stops_after (max_pages self) cur (view b cur) →
   crawl (S fuel) b self fs tr cur =
     Some {| status := Ok tt; crawler := self2; files := fs2;
             trace := tr ++ [Scraped cur true] |})
  ∧ (¬ stops_after (max_pages self) cur (view b cur) →
     crawl (S fuel) b self fs tr cur =
       crawl fuel b self2 fs2 (tr ++ [Scraped cur true]) (cur + 1)
     ∧ ∃ o ok tr',
         crawl (S fuel) b self fs tr cur = Some o ∧
         trace o = tr ++ Scraped cur true :: Scraped (cur + 1) ok :: tr').
Proof.
  intros Hcur Hfuel Hscrape Hpersist.
  assert (max_pages self2 = max_pages self) as Hmax.
  { pose proof (persist_config (now b) self1 fs) as H1.
    pose proof (scrape_page_config self (view b cur) cur) as H2.
    rewrite Hpersist in H1. rewrite Hscrape in H2. cbn in H1, H2. congruence. }
  assert (crawl (S fuel) b self fs tr cur =
          if (cur <? max_pages self) && turn_page (view b cur)
          then crawl fuel b self2 fs2 (tr ++ [Scraped cur true]) (cur + 1)
          else Some {| status := Ok tt; crawler := self2; files := fs2;
                       trace := tr ++ [Scraped cur true] |}) as Hstep.
  { cbn [crawl]. destruct (cur <=? max_pages self) eqn:E;
      [|apply Z.leb_gt in E; lia].
    cbn [negb]. rewrite Hscrape. cbn [negb]. rewrite Hpersist, Hmax.
    by destruct (cur <? max_pages self), (turn_page (view b cur)). }
  rewrite stops_after_spec. split.
  - intros Hstop. by rewrite Hstep, Hstop.
  - intros Hgo%not_false_is_true. rewrite Hstep, Hgo. split; [done|].
    apply andb_true_iff in Hgo as [Hlt%Z.ltb_lt _].
    destruct (crawl_total fuel b self2 fs2 (tr ++ [Scraped cur true]) (cur + 1))
      as [o Ho]; [lia|].
    exists o. pose proof (crawl_trace _ _ _ _ _ _ _ Ho) as Htr. rewrite Hmax in Htr.
    destruct (cur + 1 <=? max_pages self) eqn:E; [|apply Z.leb_gt in E; lia].
    destruct Htr as (ok & tr' & ->). exists ok, tr'. by rewrite <- (assoc_L (++)).
Qed.

Lemma C7_pagination_witness :
  let self := init ["market"] 5 "output" in
  let self1 := (scrape_page self (view market_site 1) 1).2 in
  let self2 := (persist (now market_site) self1 ∅).1.2 in
  let fs2 := (persist (now market_site) self1 ∅).2 in
  1 ≤ max_pages self
  ∧ (Z.to_nat (max_pages self - 1) ≤ 4)%nat
  ∧ scrape_page self (view market_site 1) 1 = (true, self1)
  ∧ persist (now market_site) self1 ∅ = (Ok tt, self2, fs2)
  ∧ ¬ stops_after (max_pages self) 1 (view market_site 1)
  ∧ stops_after (max_pages self2) 2 (view market_site 2)
  ∧ crawl 5 market_site self ∅ [] 1 = crawl 4 market_site self2 fs2 [Scraped 1 true] 2
  ∧ crawl 4 market_site self2 fs2 [Scraped 1 true] 2 =
      Some {| status := Ok tt;
              crawler := (persist (now market_site)
                            (scrape_page self2 (view market_site 2) 2).2 fs2).1.2;
              files := (persist (now market_site)
                          (scrape_page self2 (view market_site 2) 2).2 fs2).2;
              trace := [Scraped 1 true; Scraped 2 true] |}.
Proof.
  intros self self1 self2 fs2.
  assert (1 ≤ max_pages self) as H1 by (by vm_compute).
  assert (Z.to_nat (max_pages self - 1) ≤ 4)%nat as Hf by (vm_compute; lia).
  assert (scrape_page self (view market_site 1) 1 = (true, self1)) as H2 by reflexivity.
  assert (persist (now market_site) self1 ∅ = (Ok tt, self2, fs2)) as H3 by reflexivity.
  assert (¬ stops_after (max_pages self) 1 (view market_site 1)) as H4.
  { intros [H|[H|[[e H]|(btn & e & H & [H'|H'])]]]; vm_compute in H;
      try discriminate H; [by apply H|..]; injection H as <-; discriminate H'. }
  assert (stops_after (max_pages self2) 2 (view market_site 2)) as H5
    by (right; left; reflexivity).
  split_and!; [done..| |].
  - by apply (C7_pagination 4 market_site self ∅ [] 1 self1 self2 fs2 H1 Hf H2 H3).
  - assert (max_pages self2 = 5) as Hm by reflexivity.
    by apply (C7_pagination 3 market_site self2 fs2 [Scraped 1 true] 2
                (scrape_page self2 (view market_site 2) 2).2);
      [rewrite Hm|rewrite Hm; vm_compute; lia|reflexivity..|].
Defined.




(** ** Items *)

(** C9: when the extraction of one item of a page raises, [scrape_page]
    still returns [True]; the failing item leaves the crawler as it was, and
    the records appended are those of the other items of the page, each of
    them evaluated, in the order in which the coroutines complete. *)
Theorem C9_failing_item_is_skipped self pv page_num before failing after e :
  wait_news_list pv = Ok tt →
  query_items pv = Ok (before ++ failing :: after) →
  completion pv (before ++ failing :: after) ≡ₚ before ++ failing :: after →
  extract (keywords self) failing page_num = Raise e →
  ∃ new,
    scrape_page self pv page_num = (true, set_results self (results self ++ new)) ∧
    process_news_item self failing page_num = self ∧
    new ≡ₚ (before ++ after) ≫= kept (keywords self) page_num ∧
    ∀ item r, item ∈ before ++ after →
              extract (keywords self) item page_num = Ok (Some r) → r ∈ new.
Proof.
  intros Hwait Hitems Hperm Hfail.
  assert (kept (keywords self) page_num failing = []) as Hkept
    by (unfold kept; by rewrite Hfail).
  assert (completion pv (before ++ failing :: after) ≫= kept (keywords self) page_num
          ≡ₚ (before ++ after) ≫= kept (keywords self) page_num) as Hnew.
  { rewrite Hperm, !bind_app, bind_cons, Hkept. done. }
  eexists. rewrite scrape_page_spec, Hwait, Hitems. split_and!; [done| |exact Hnew|].
  - unfold process_news_item. by rewrite Hfail.
  - intros item r Hitem Hr. rewrite Hnew. apply list_elem_of_bind. exists item.
    split; [|done]. unfold kept. rewrite Hr. apply list_elem_of_here.
Qed.

Lemma C9_failing_item_is_skipped_witness :
  let self := init ["market"] 5 "output" in
  let first := sample_item "market up" "s1" "http://a" in
  let last := sample_item "the market" "" "http://d" in
  let pv := {| wait_news_list := Ok tt; query_items := Ok ([first] ++ broken_item :: [last]);
               completion := id; query_next := Ok None |} in
  wait_news_list pv = Ok tt
  ∧ query_items pv = Ok ([first] ++ broken_item :: [last])
  ∧ completion pv ([first] ++ broken_item :: [last]) ≡ₚ [first] ++ broken_item :: [last]
  ∧ extract (keywords self) broken_item 1 = Raise (Exception "element is detached")
  ∧ ∃ new,
      scrape_page self pv 1 = (true, set_results self (results self ++ new)) ∧
      process_news_item self broken_item 1 = self ∧
      new ≡ₚ ([first] ++ [last]) ≫= kept (keywords self) 1 ∧
      ∀ item r, item ∈ [first] ++ [last] →
                extract (keywords self) item 1 = Ok (Some r) → r ∈ new.
Proof.
  intros self first last pv.
  split_and!; [reflexivity..|].
  apply (C9_failing_item_is_skipped self pv 1 [first] broken_item [last]
           (Exception "element is detached")); reflexivity.
Defined.

(** * Further properties *)

(** ** Reading a document back *)

Lemma record_of_json_record r : record_of_json (record_json r) = Some r.
Proof. by destruct r. Qed.

Lemma batch_of_json_batch rs : batch_of_json (batch_json rs) = Some rs.
Proof.
  unfold batch_of_json, batch_json. apply mapM_Some.
  induction rs as [|r rs IH]; cbn [map]; constructor; [apply record_of_json_record|done].
Qed.

Lemma parse_document_document bs :
  bs ≠ [] → parse_document (document bs) = Some bs.
Proof.
  intros Hbs. unfold parse_document. rewrite document_loads by done.
  apply mapM_Some. clear Hbs.
  induction bs as [|rs bs IH]; cbn [map]; constructor; [apply batch_of_json_batch|done].
Qed.

(** The batches written are read back from the document, each with its
    records in the order written, so two different sequences of batches
    never give the same file: nothing is lost or merged by the way
    [save_results] splices batches. *)
Theorem document_round_trip bs bs' :
  bs ≠ [] →
  parse_document (document bs) = Some bs
  ∧ (bs' ≠ [] → document bs = document bs' → bs = bs').
Proof.
  intros Hbs. split; [by apply parse_document_document|].
  intros Hbs' Heq. pose proof (parse_document_document bs Hbs) as H.
  rewrite Heq, parse_document_document in H by done. by injection H.
Qed.

Lemma document_round_trip_witness :
  let r1 := {| title := "a"; summary := "b"; url := "http://x"; page := 1 |} in
  let r2 := {| title := String DQUOTE "q"; summary := str LF; url := "http://y"; page := 2 |} in
  [[r1]; [r2; r1]] ≠ [] ∧ parse_document (document [[r1]; [r2; r1]]) = Some [[r1]; [r2; r1]].
Proof.
  intros r1 r2. split; [done|].
  by apply (document_round_trip [[r1]; [r2; r1]] [[r1]]).
Defined.

(** ** [save_results] *)

(** With [incremental=False] the file is opened for writing: whatever it
    held, it holds the current batch alone afterwards, and [self.results] is
    emptied. *)
Theorem save_results_overwrites now self fs :
  results self ≠ [] →
  save_results false now self fs =
    (Ok tt, set_results (set_filename self (file_name now self)) [],
     <[file_name now self := document [results self]]> fs)
  ∧ parse_document (document [results self]) = Some [results self].
Proof.
  intros Hrs. split; [|by apply parse_document_document].
  unfold save_results, file_name. destruct (results self) as [|r rs] eqn:Er; [done|].
  cbv zeta. cbn [andb negb orb].
  destruct (filename self) as [fn|]; cbn [default from_option id];
    rewrite lookup_insert_eq; cbn [default from_option id set_filename results];
    by rewrite Er, insert_insert_eq.
Qed.

Lemma save_results_overwrites_witness :
  let r := {| title := "t"; summary := "s"; url := "http://x"; page := 3 |} in
  let self := set_results (set_filename (init [] 5 "output") "output/old.json") [r] in
  let fs : gmap string string := {[ "output/old.json" := "not json at all" ]} in
  results self ≠ []
  ∧ save_results false "20240101_120000" self fs =
      (Ok tt, set_results self [], {[ "output/old.json" := document [[r]] ]}).
Proof.
  intros r self fs. split; [done|].
  rewrite (proj1 (save_results_overwrites "20240101_120000" self fs ltac:(done))).
  unfold fs. cbn [file_name default from_option id filename self set_results set_filename].
  by rewrite insert_singleton_eq.
Defined.

Lemma save_results_frame incremental now self fs :
  filename (save_results incremental now self fs).1.2 =
    (if results self is [] then filename self else Some (file_name now self))
  ∧ (∀ path, path ≠ file_name now self →
       (save_results incremental now self fs).2 !! path = fs !! path).
Proof.
  unfold save_results, file_name.
  destruct (results self) as [|r rs]; [done|]. cbv zeta.
  destruct (filename self) as [fn|]; cbn [default from_option id];
    repeat match goal with |- context [if ?c then _ else _] => destruct c end;
    (split; [done|intros path Hpath; cbn [snd]; by rewrite ?lookup_insert_ne]).
Qed.

(** The path is fixed by the first write: a crawler that has a file name
    keeps it whatever the clock says later, one that has none gets the name
    made from the time stamp (or stays without one when there is nothing to
    write), and no other path of the file system is touched. *)
Theorem save_results_path incremental now self fs :
  let '(_, self', fs') := save_results incremental now self fs in
  (filename self' = (if results self is [] then filename self
                     else Some (file_name now self)))
  ∧ (∀ fn, filename self = Some fn → filename self' = Some fn)
  ∧ (∀ path, path ≠ file_name now self → fs' !! path = fs !! path).
Proof.
  pose proof (save_results_frame incremental now self fs) as [Hfn Hfs].
  destruct (save_results incremental now self fs) as [[r self'] fs'].
  cbn [fst snd] in Hfn, Hfs. split_and!; [done| |done].
  intros fn Hself. rewrite Hfn. unfold file_name. rewrite Hself.
  by destruct (results self).
Qed.

Lemma save_results_one_byte now self fs a :
  fs !! file_name now self = Some (String a "") → results self ≠ [] →
  save_results true now self fs =
    (Raise (Exception "negative seek position"), set_filename self (file_name now self), fs).
Proof.
  intros Hfs Hrs. unfold save_results. fold (file_name now self).
  destruct (results self) as [|r rs] eqn:Er; [done|]. cbv zeta.
  change (match filename self with Some fn => fn | None => default_name self now end)
    with (file_name now self).
  rewrite Hfs. rewrite bool_decide_eq_true_2 by done. cbn [andb]. rewrite Hfs.
  by rewrite bool_decide_eq_true_2 by done.
Qed.

Lemma save_results_path_witness :
  let r := {| title := "t"; summary := "s"; url := "http://x"; page := 2 |} in
  let self := set_results (set_filename (init [] 5 "output") "output/first.json") [r] in
  filename self = Some "output/first.json"
  ∧ filename (save_results true "20250101_000000" self ∅).1.2 = Some "output/first.json".
Proof.
  intros r self. split; [reflexivity|].
  pose proof (save_results_path true "20250101_000000" self ∅) as H.
  destruct (save_results true "20250101_000000" self ∅) as [[res self'] fs'].
  destruct H as (_ & H & _). by apply H.
Defined.

(** In append mode a file that is already there is not looked at beyond its
    size: an empty one is written like a new one; one of a single byte makes
    the seek fail, so the call raises with the file and [self.results] as
    they were; a longer one loses its last two bytes, whatever they are, to
    the separator and the new batch. *)
Theorem save_results_existing_file now self fs content :
  fs !! file_name now self = Some content → results self ≠ [] →
  save_results true now self fs =
  match content with
  | "" =>
      (Ok tt, set_results (set_filename self (file_name now self)) [],
       <[file_name now self := document [results self]]> fs)
  | String _ "" =>
      (Raise (Exception "negative seek position"),
       set_filename self (file_name now self), fs)
  | _ =>
      (Ok tt, set_results (set_filename self (file_name now self)) [],
       <[file_name now self :=
           truncate (String.length content - 2) content
           +:+ SEP +:+ json_dumps (batch_json (results self)) +:+ CLOSE]> fs)
  end.
Proof.
  intros Hfs Hrs. unfold save_results. fold (file_name now self).
  destruct (results self) as [|r rs] eqn:Er; [done|]. cbv zeta.
  change (match filename self with Some fn => fn | None => default_name self now end)
    with (file_name now self).
  rewrite Hfs. rewrite bool_decide_eq_true_2 by done. cbn [andb]. rewrite Hfs.
  rewrite bool_decide_eq_true_2 by done. cbn [negb orb default from_option id].
  cbn [results set_filename]. rewrite Er.
  destruct content as [|a [|a' content]]; done.
Qed.

Lemma save_results_existing_file_witness :
  let r := {| title := "t"; summary := "s"; url := "http://x"; page := 1 |} in
  let self := set_results (init [] 5 "output") [r] in
  let fs : gmap string string := {[ "output/sina_news_20240101_120000.json" := "x" ]} in
  fs !! file_name "20240101_120000" self = Some "x"
  ∧ results self ≠ []
  ∧ save_results true "20240101_120000" self fs =
      (Raise (Exception "negative seek position"),
       set_filename self "output/sina_news_20240101_120000.json", fs).
Proof.
  intros r self fs.
  assert (fs !! file_name "20240101_120000" self = Some "x") as H by reflexivity.
  split_and!; [done..|].
  by rewrite (save_results_existing_file "20240101_120000" self fs "x" H).
Defined.

(** ** Keyword filter *)

(** The empty string is a substring of every title, so a keyword list that
    holds it keeps every item. *)
Theorem empty_keyword_matches_all keywords t s :
  "" ∈ keywords → matches keywords t s = true.
Proof.
  intros Hin. unfold matches.
  assert (any_keyword keywords t s = true) as ->; [|by rewrite andb_false_r].
  apply any_keyword_spec. exists "". split; [done|]. left. by exists "", t.
Qed.

Lemma empty_keyword_matches_all_witness :
  "" ∈ ["sport"; ""] ∧ matches ["sport"; ""] "stock market up" "s" = true.
Proof.
  assert ("" ∈ ["sport"; ""]) as H by (apply list_elem_of_further, list_elem_of_here).
  split; [done|]. by apply (empty_keyword_matches_all ["sport"; ""]).
Defined.

(** ** [scrape_page] *)




(** ** [run] and [main] *)

Lemma crawl_in_order fuel : ∀ b self fs tr cur o,
  crawl fuel b self fs tr cur = Some o →
  ∃ evs, trace o = tr ++ evs ∧ in_order cur evs
         ∧ (length evs ≤ Z.to_nat (max_pages self + 1 - cur))%nat.
Proof.
  induction fuel as [|fuel IH]; intros b self fs tr cur o; cbn [crawl];
    destruct (cur <=? max_pages self) eqn:E; cbn [negb]; try done;
    try (intros [= <-]; exists []; rewrite app_nil_r; split_and!; [done..|cbn; lia]).
  apply Z.leb_le in E.
  assert (∀ ok, in_order cur [Scraped cur ok]
                ∧ (length [Scraped cur ok] ≤ Z.to_nat (max_pages self + 1 - cur))%nat)
    as Hone by (intros ok; split; [done|cbn; lia]).
  pose proof (scrape_page_config self (view b cur) cur) as H1.
  destruct (scrape_page self (view b cur) cur) as [success self1].
  destruct success; cbn [negb]; [|intros [= <-]; by eexists].
  pose proof (persist_config (now b) self1 fs) as H2.
  destruct (persist (now b) self1 fs) as [[saved self2] fs2]. cbn in H1, H2.
  destruct saved as [[]|e]; [|intros [= <-]; by eexists].
  destruct (cur <? max_pages self2); [|intros [= <-]; by eexists].
  destruct (turn_page (view b cur)); [|intros [= <-]; by eexists].
  intros Ho. apply IH in Ho as (evs & -> & Hord & Hlen).
  exists (Scraped cur true :: evs). rewrite <- (assoc_L (++)).
  split_and!; [done|by split_and!|cbn [length]; lia].
Qed.

(** The pages are scraped in order from page 1, without a gap and never
    more than [max_pages] of them (none when [max_pages] is 0 or negative),
    and a scrape that failed is the last one of the run. *)
Theorem main_pages_in_order b fs kws limit :
  ∃ code fs' tr,
    main b fs kws limit = Some (code, fs', tr)
    ∧ in_order 1 tr ∧ (length tr ≤ Z.to_nat limit)%nat.
Proof.
  unfold main, run.
  destruct (start_page b) as [[]|e];
    [|eexists 1, fs, []; cbn; split_and!; [done..|lia]].
  destruct (crawl_total (Z.to_nat limit) b (init kws limit "output") fs [] 1)
    as [o Ho]; [cbn; lia|].
  cbn [max_pages init]. rewrite Ho.
  apply crawl_in_order in Ho as (evs & Htr & Hord & Hlen).
  cbn [app] in Htr. rewrite Htr. cbn [max_pages init] in Hlen.
  replace (limit + 1 - 1) with limit in Hlen by lia.
  destruct (status o); [|by eexists _, _, _].
  destruct (finalize (crawler o) (files o)) as [[] ?]; by eexists _, _, _.
Qed.

Lemma scrape_page_filename self pv page_num :
  filename (scrape_page self pv page_num).2 = filename self
  ∧ output_dir (scrape_page self pv page_num).2 = output_dir self.
Proof.
  rewrite scrape_page_spec.
  by destruct (wait_news_list pv) as [[]|], (query_items pv).
Qed.

Lemma persist_frame now self fs :
  filename (persist now self fs).1.2 =
    (if results self is [] then filename self else Some (file_name now self))
  ∧ output_dir (persist now self fs).1.2 = output_dir self
  ∧ (∀ path, path ≠ file_name now self → (persist now self fs).2 !! path = fs !! path).
Proof.
  unfold persist. destruct (results self) as [|r rs] eqn:E; [done|].
  pose proof (save_results_frame true now self fs) as [H1 H2].
  pose proof (save_results_config true now self fs) as (_ & _ & H3).
  rewrite E in H1. done.
Qed.

Lemma crawl_frame fuel : ∀ b self fs tr cur o fn,
  crawl fuel b self fs tr cur = Some o →
  file_name (now b) self = fn →
  file_name (now b) (crawler o) = fn
  ∧ (filename (crawler o) = filename self ∨ filename (crawler o) = Some fn)
  ∧ ∀ path, path ≠ fn → files o !! path = fs !! path.
Proof.
  induction fuel as [|fuel IH]; intros b self fs tr cur o fn; cbn [crawl];
    destruct (cur <=? max_pages self); cbn [negb]; try done;
    try (intros [= <-] ?; split_and!; [done|by left|done]).
  intros Ho Hfn.
  pose proof (scrape_page_filename self (view b cur) cur) as [H1 H1'].
  destruct (scrape_page self (view b cur) cur) as [success self1].
  cbn [snd] in H1, H1'.
  assert (file_name (now b) self1 = fn) as Hfn1
    by (unfold file_name, default_name in *; by rewrite H1, H1').
  destruct success; cbn [negb] in Ho;
    [|injection Ho as <-; cbn; split_and!; [done|by left|done]].
  pose proof (persist_frame (now b) self1 fs) as (H2 & H2' & H3).
  destruct (persist (now b) self1 fs) as [[saved self2] fs2].
  cbn [fst snd] in H2, H2', H3. rewrite Hfn1 in H2, H3.
  assert (file_name (now b) self2 = fn ∧ (filename self2 = filename self ∨ filename self2 = Some fn))
    as [Hfn2 Hor].
  { destruct (results self1).
    - split; [|left; congruence]. unfold file_name, default_name in *. by rewrite H2, H2'.
    - split; [|by right]. unfold file_name. by rewrite H2. }
  assert (∀ o', Some {| status := status o'; crawler := self2; files := fs2; trace := trace o' |}
                = Some o →
            file_name (now b) (crawler o) = fn
            ∧ (filename (crawler o) = filename self ∨ filename (crawler o) = Some fn)
            ∧ ∀ path, path ≠ fn → files o !! path = fs !! path) as Hstop
    by (intros o' [= <-]; cbn; by split_and!).
  destruct saved as [[]|e]; [|by apply (Hstop {| status := Raise e; crawler := self2;
                                                  files := fs2; trace := tr ++ [Scraped cur true] |})].
  destruct (cur <? max_pages self2);
    [|by apply (Hstop {| status := Ok tt; crawler := self2; files := fs2;
                         trace := tr ++ [Scraped cur true] |})].
  destruct (turn_page (view b cur));
    [|by apply (Hstop {| status := Ok tt; crawler := self2; files := fs2;
                         trace := tr ++ [Scraped cur true] |})].
  destruct (IH _ _ _ _ _ _ fn Ho Hfn2) as (? & Hor' & Hfiles).
  split_and!; [done| |].
  - destruct Hor' as [-> | ->]; [done|by right].
  - intros path Hpath. by rewrite Hfiles, H3.
Qed.

(** [main] writes to one path only, the one made from the output directory
    and the time stamp: every other file is as it was, whatever the browser
    does and whatever the file system held. *)
Theorem main_touches_one_file b fs kws limit path :
  path ≠ default_name (init kws limit "output") (now b) →
  ∃ code fs' tr,
    main b fs kws limit = Some (code, fs', tr) ∧ fs' !! path = fs !! path.
Proof.
  intros Hpath. unfold main.
  destruct (run_total b (init kws limit "output") fs) as [o Ho]. rewrite Ho.
  assert ((filename (crawler o) = None
           ∨ filename (crawler o) = Some (default_name (init kws limit "output") (now b)))
          ∧ files o !! path = fs !! path) as (Hor & Hfiles).
  { unfold run in Ho. destruct (start_page b).
    - destruct (crawl_frame _ _ _ _ _ _ _ _ Ho eq_refl) as (_ & Hor & Hf).
      split; [|by apply Hf]. destruct Hor as [Hn|Hs]; [left; by rewrite Hn|by right].
    - injection Ho as <-. cbn. by split; [left|]. }
  destruct (status o); [|by eexists _, _, _].
  unfold finalize. destruct Hor as [-> | ->]; [by eexists _, _, _|].
  destruct (files o !! default_name (init kws limit "output") (now b));
    eexists _, _, _; (split; [reflexivity|]); [|done].
  by rewrite lookup_insert_ne.
Qed.

Lemma main_touches_one_file_witness :
  "output/notes.txt" ≠ default_name (init ["market"] 5 "output") (now market_site)
  ∧ ∃ code fs' tr,
      main market_site {[ "output/notes.txt" := "keep" ]} ["market"] 5 = Some (code, fs', tr)
      ∧ fs' !! "output/notes.txt" = ({[ "output/notes.txt" := "keep" ]} : gmap string string) !! "output/notes.txt".
Proof.
  assert ("output/notes.txt" ≠ default_name (init ["market"] 5 "output") (now market_site))
    as H by (by vm_compute).
  split; [done|].
  by apply (main_touches_one_file market_site {[ "output/notes.txt" := "keep" ]}
              ["market"] 5 "output/notes.txt").
Defined.

Lemma crawl_no_match fuel : ∀ b self fs tr cur,
  results self = [] → (∀ n, page_batch b (keywords self) n = []) →
  (Z.to_nat (max_pages self + 1 - cur) ≤ fuel)%nat →
  ∃ tr', crawl fuel b self fs tr cur =
           Some {| status := Ok tt; crawler := self; files := fs; trace := tr' |}.
Proof.
  induction fuel as [|fuel IH]; intros b self fs tr cur Hrs Hnone Hfuel; cbn [crawl];
    destruct (cur <=? max_pages self) eqn:E; cbn [negb]; try (by eexists);
    apply Z.leb_le in E; [lia|].
  rewrite scrape_page_spec. specialize (Hnone cur) as Hcur. unfold page_batch in Hcur.
  destruct (wait_news_list (view b cur)) as [[]|e]; [|by eexists].
  destruct (query_items (view b cur)) as [items|e]; [|by eexists].
  rewrite Hcur, app_nil_r, set_results_id. cbn [negb].
  rewrite persist_nil by done.
  destruct (cur <? max_pages self); [|by eexists].
  destruct (turn_page (view b cur)); [|by eexists].
  apply IH; [done..|lia].
Qed.

(** When no item of any page passes the filter, nothing is ever written: a
    run whose start page loads ends with status 0 and the file system as it
    was, whatever it held. *)
Theorem no_match_no_file b fs kws limit :
  start_page b = Ok tt → (∀ n, page_batch b kws n = []) →
  ∃ tr, main b fs kws limit = Some (0, fs, tr).
Proof.
  intros Hstart Hnone. unfold main, run. rewrite Hstart. cbn [max_pages init].
  destruct (crawl_no_match (Z.to_nat limit) b (init kws limit "output") fs [] 1)
    as [tr ->]; [done|done|cbn; lia|].
  by exists tr.
Qed.

Lemma no_match_no_file_witness :
  let site := sample_site (λ _, linked_page [sample_item "x" "y" "http://b"; broken_item]) in
  let fs : gmap string string := {[ "output/sina_news_20240101_120000.json" := "old" ]} in
  start_page site = Ok tt
  ∧ (∀ n, page_batch site ["market"] n = [])
  ∧ ∃ tr, main site fs ["market"] 3 = Some (0, fs, tr).
Proof.
  intros site fs.
  assert (∀ n, page_batch site ["market"] n = []) as H by (intros n; reflexivity).
  split_and!; [reflexivity|done|].
  by apply (no_match_no_file site fs ["market"] 3).
Defined.

Lemma batches_of_cons b keywords n pages :
  batches_of b keywords (n :: pages) =
  match page_batch b keywords n with
  | [] => batches_of b keywords pages
  | rs => rs :: batches_of b keywords pages
  end.
Proof. unfold batches_of. cbn [omap list_omap]. by destruct (page_batch b keywords n). Qed.

Lemma crawl_document fuel : ∀ b self fs tr cur bs,
  stored (now b) self fs bs → results self = [] →
  (Z.to_nat (max_pages self + 1 - cur) ≤ fuel)%nat →
  ∃ o evs,
    crawl fuel b self fs tr cur = Some o ∧ status o = Ok tt ∧ trace o = tr ++ evs ∧
    stored (now b) (crawler o) (files o)
      (bs ++ batches_of b (keywords self) (processed evs)) ∧
    files o = (if batches_of b (keywords self) (processed evs) is [] then fs
               else <[file_name (now b) self :=
                        document (bs ++ batches_of b (keywords self) (processed evs))]> fs).
Proof.
  induction fuel as [|fuel IH]; intros b self fs tr cur bs Hst Hrs Hfuel.
  - exists {| status := Ok tt; crawler := self; files := fs; trace := tr |}, [].
    cbn [crawl]. destruct (cur <=? max_pages self) eqn:E; [apply Z.leb_le in E; lia|].
    rewrite !app_nil_r. by split_and!.
  - cbn [crawl]. destruct (cur <=? max_pages self) eqn:E; cbn [negb];
      [apply Z.leb_le in E|];
      [|exists {| status := Ok tt; crawler := self; files := fs; trace := tr |}, [];
        rewrite !app_nil_r; by split_and!].
    rewrite scrape_page_spec.
    destruct (wait_news_list (view b cur)) as [[]|e];
      [|eexists _, [Scraped cur false]; cbn; rewrite app_nil_r; by split_and!].
    pose proof (batches_of_cons b (keywords self) cur) as Hcons. unfold page_batch in Hcons.
    destruct (query_items (view b cur)) as [news_items|e];
      [|eexists _, [Scraped cur false]; cbn; rewrite app_nil_r; by split_and!].
    cbn [negb]. rewrite Hrs, app_nil_l.
    destruct (completion (view b cur) news_items ≫= kept (keywords self) cur)
      as [|r new] eqn:Enew.
    + rewrite persist_nil by done. cbn [max_pages set_results].
      assert (batches_of b (keywords self) (processed [Scraped cur true]) = []) as Hone
        by (cbn [processed omap list_omap]; by rewrite Hcons).
      destruct (cur <? max_pages self) eqn:Elt;
        [|eexists _, [Scraped cur true]; rewrite Hone, app_nil_r; split_and!; try done;
          by apply (stored_config _ self)].
      destruct (turn_page (view b cur));
        [|eexists _, [Scraped cur true]; rewrite Hone, app_nil_r; split_and!; try done;
          by apply (stored_config _ self)].
      apply Z.ltb_lt in Elt.
      destruct (IH b (set_results self []) fs (tr ++ [Scraped cur true]) (cur + 1) bs)
        as (o & evs & Ho & ? & Htr & Hsto & Hfiles);
        [by apply (stored_config _ self)|done|cbn [max_pages set_results]; lia|].
      exists o, (Scraped cur true :: evs).
      assert (batches_of b (keywords self) (processed (Scraped cur true :: evs))
              = batches_of b (keywords self) (processed evs)) as ->
        by (cbn [processed omap list_omap]; by rewrite Hcons).
      rewrite Htr, <- (assoc_L (++)). by split_and!.
    + set (self1 := set_results self (r :: new)).
      assert (stored (now b) self1 fs bs) as Hst1 by by apply (stored_config _ self).
      rewrite (persist_spec _ self1 fs bs) by done.
      assert (file_name (now b) self1 = file_name (now b) self) as Efn by done.
      rewrite Efn. cbn [results self1 set_results max_pages set_filename].
      set (fn := file_name (now b) self).
      set (self2 := set_results (set_filename self1 fn) []).
      set (fs2 := <[fn := document (bs ++ [r :: new])]> fs).
      assert (stored (now b) self2 fs2 (bs ++ [r :: new])) as Hst2.
      { split; [by destruct bs|apply lookup_insert_eq]. }
      assert (∀ evs, batches_of b (keywords self) (processed (Scraped cur true :: evs))
                     = (r :: new) :: batches_of b (keywords self) (processed evs)) as Hbat
        by (intros evs; cbn [processed omap list_omap]; by rewrite Hcons).
      assert (∃ o evs,
        (if cur <? max_pages self
         then if turn_page (view b cur)
              then crawl fuel b self2 fs2 (tr ++ [Scraped cur true]) (cur + 1)
              else Some {| status := Ok tt; crawler := self2; files := fs2;
                           trace := tr ++ [Scraped cur true] |}
         else Some {| status := Ok tt; crawler := self2; files := fs2;
                      trace := tr ++ [Scraped cur true] |}) = Some o ∧
        status o = Ok tt ∧ trace o = (tr ++ [Scraped cur true]) ++ evs ∧
        stored (now b) (crawler o) (files o)
          ((bs ++ [r :: new]) ++ batches_of b (keywords self) (processed evs)) ∧
        files o = (if batches_of b (keywords self) (processed evs) is [] then fs2
                   else <[fn := document ((bs ++ [r :: new])
                                          ++ batches_of b (keywords self) (processed evs))]> fs2))
        as (o & evs & Ho & ? & Htr & Hsto & Hfiles).
      { destruct (cur <? max_pages self) eqn:Elt;
          [|eexists _, []; cbn [processed omap list_omap batches_of];
            rewrite !app_nil_r; by split_and!].
        destruct (turn_page (view b cur));
          [|eexists _, []; cbn [processed omap list_omap batches_of];
            rewrite !app_nil_r; by split_and!].
        apply Z.ltb_lt in Elt.
        destruct (IH b self2 fs2 (tr ++ [Scraped cur true]) (cur + 1) (bs ++ [r :: new]))
          as (o & evs & Ho & ? & ? & ? & ?);
          [done|done|cbn [max_pages set_results set_filename self2 self1]; lia|].
        by exists o, evs. }
      exists o, (Scraped cur true :: evs). rewrite Ho, Hbat.
      rewrite <- (assoc_L (++)) in Hsto, Hfiles. rewrite <- (assoc_L (++)) in Htr.
      cbn [app] in Hsto, Hfiles, Htr.
      split_and!; try done.
      rewrite Hfiles. destruct (batches_of _ _ _); [done|]. unfold fs2.
      by rewrite insert_insert_eq.
Qed.

Lemma batches_of_pages b keywords pages :
  Forall (λ rs, rs ≠ [] ∧ ∃ n, n ∈ pages ∧ rs = page_batch b keywords n
                              ∧ Forall (λ r, page r = n) rs)
    (batches_of b keywords pages).
Proof.
  apply Forall_forall. intros rs (n & Hn & Hrs)%list_elem_of_omap.
  destruct (page_batch b keywords n) as [|r rs'] eqn:E; [done|]. injection Hrs as <-.
  split; [done|]. exists n. split_and!; [done..|]. rewrite <- E. unfold page_batch.
  destruct (query_items (view b n)); [|constructor].
  eapply Forall_impl; [apply bind_kept_good|]. by intros ? (_ & ? & _).
Qed.

(** What a run leaves behind, with the output file absent at the start and
    the start page loading: the document holds one batch for each page
    scraped with success that kept a record, in page order, and such a
    batch is what the items of that page give, all with that page number;
    when no page kept a record no file is created. The status is 0. *)
Theorem main_document b fs kws limit :
  fs !! default_name (init kws limit "output") (now b) = None →
  start_page b = Ok tt →
  ∃ tr,
    main b fs kws limit =
      Some (0, (if batches_of b kws (processed tr) is [] then fs
                else <[default_name (init kws limit "output") (now b) :=
                         document (batches_of b kws (processed tr))]> fs), tr)
    ∧ Forall (λ rs, rs ≠ [] ∧ ∃ n, n ∈ processed tr ∧ rs = page_batch b kws n
                                ∧ Forall (λ r, page r = n) rs)
        (batches_of b kws (processed tr)).
Proof.
  intros Hfs Hstart. unfold main, run. rewrite Hstart.
  destruct (crawl_document (Z.to_nat limit) b (init kws limit "output") fs [] 1 [])
    as (o & evs & Ho & Hstatus & Htr & Hst & Hfiles); [by split|done|cbn; lia|].
  cbn [max_pages init]. rewrite Ho, Hstatus.
  rewrite (finalize_stored _ _ _ _ Hst), Hfiles. cbn [app] in Htr. rewrite Htr.
  exists evs. split; [done|]. apply batches_of_pages.
Qed.

Lemma main_document_witness :
  (∅ : gmap string string) !! default_name (init ["market"] 5 "output") (now market_site) = None
  ∧ start_page market_site = Ok tt
  ∧ ∃ tr,
      main market_site ∅ ["market"] 5 =
        Some (0, (if batches_of market_site ["market"] (processed tr) is [] then ∅
                  else <[default_name (init ["market"] 5 "output") (now market_site) :=
                           document (batches_of market_site ["market"] (processed tr))]> ∅), tr).
Proof.
  assert ((∅ : gmap string string)
            !! default_name (init ["market"] 5 "output") (now market_site) = None) as H
    by reflexivity.
  split_and!; [done|reflexivity|].
  destruct (main_document market_site ∅ ["market"] 5 H eq_refl) as (tr & Hmain & _).
  by exists tr.
Defined.

(** A write that fails ends the run: when the file named after the time
    stamp is already there with a single byte and page 1 keeps a record, the
    seek in [save_results] raises, nothing handles it, and [main] ends with
    status 1 after that one page, the file system as it was. *)
Theorem write_failure_aborts b fs kws limit a :
  start_page b = Ok tt → 1 ≤ limit →
  wait_news_list (view b 1) = Ok tt → page_batch b kws 1 ≠ [] →
  fs !! default_name (init kws limit "output") (now b) = Some (String a "") →
  main b fs kws limit = Some (1, fs, [Scraped 1 true]).
Proof.
  intros Hstart Hlimit Hwait Hbatch Hfs. unfold main, run. rewrite Hstart.
  cbn [max_pages init]. destruct (Z.to_nat limit) as [|fuel] eqn:Ef; [lia|].
  cbn [crawl max_pages init]. destruct (1 <=? limit) eqn:E; [|apply Z.leb_gt in E; lia].
  cbn [negb]. rewrite scrape_page_spec, Hwait. unfold page_batch in Hbatch.
  destruct (query_items (view b 1)) as [items|e]; [|done]. cbn [negb results init app].
  unfold persist. cbn [results set_results].
  destruct (completion (view b 1) items ≫= kept kws 1) as [|r new] eqn:Enew; [done|].
  cbn [keywords init] in *. rewrite Enew.
  by rewrite (save_results_one_byte _ _ _ a).
Qed.

Lemma write_failure_aborts_witness :
  let fs : gmap string string := {[ "output/sina_news_20240101_120000.json" := "x" ]} in
  start_page market_site = Ok tt ∧ 1 ≤ 5
  ∧ wait_news_list (view market_site 1) = Ok tt
  ∧ page_batch market_site ["market"] 1 ≠ []
  ∧ fs !! default_name (init ["market"] 5 "output") (now market_site) = Some "x"
  ∧ main market_site fs ["market"] 5 = Some (1, fs, [Scraped 1 true]).
Proof.
  intros fs.
  assert (page_batch market_site ["market"] 1 ≠ []) as Hb by (by vm_compute).
  assert (fs !! default_name (init ["market"] 5 "output") (now market_site) = Some "x")
    as Hfs by reflexivity.
  split_and!; [reflexivity|lia|reflexivity|done|done|].
  by apply (write_failure_aborts market_site fs ["market"] 5 "x"%char).
Defined.
